(** * Product-name extraction and filename sanitising

    A shallow embedding of [clean_text] and [extract_product_name] from
    [main.py] (and of their copies in [app.py]), with the properties the
    specification states about them.

    Python strings are sequences of Unicode code points: a character is a
    code point of type [N] and a string is a list of them.  The parts of
    the Python runtime the two functions call ([str.strip], [str.split],
    [str.replace], the [in] operator, slicing, indexing, [re.sub] and
    [re.search] for the patterns that occur) are modelled in module [Py].
    Two Unicode tables of the runtime are not reproduced: the lowercase
    mapping behind [str.lower] and the alphanumeric property behind the
    regular expression class [\w]; they are fields of the class
    [UnicodeDB], and every definition that needs them is stated over an
    arbitrary instance. *)

From Stdlib Require Import List NArith ZArith Bool Lia Ascii String.
From Stdlib Require Decimal DecimalZ.
Import ListNotations.

Set Implicit Arguments.
Open Scope N_scope.

(** ** Strings *)

Definition char : Type := N.
Definition str : Type := list char.

(** A [bytes] object: the content of an image file. *)
Definition bytes : Type := list N.

(** An ASCII literal as a Python string. *)
Definition lit (s : string) : str :=
  map N_of_ascii (list_ascii_of_string s).

Definition NL : char := 10.    (* "\n" *)
Definition SP : char := 32.    (* " "  *)
Definition US : char := 95.    (* "_"  *)
Definition AMP : char := 38.   (* "&"  *)
Definition DASH : char := 45.  (* "-"  *)
Definition DOT : char := 46.   (* "."  *)

(** [lo <= c <= hi] on code points. *)
Definition in_range (lo hi c : char) : bool :=
  (lo <=? c) && (c <=? hi).

(** The Unicode tables of the runtime that are taken as given. *)
Class UnicodeDB : Type := {
  (** [str.lower]: the full lowercase mapping; it works on whole strings
      (one character may map to several, and sigma depends on context). *)
  py_lower : str -> str;
  (** [str.isalnum] on one character; [\w] is this or an underscore. *)
  py_isalnum : char -> bool
}.

Definition ascii_lower_char (c : char) : char :=
  if in_range 65 90 c then c + 32 else c.

Definition ascii_isalnum (c : char) : bool :=
  (in_range 48 57 c || in_range 65 90 c || in_range 97 122 c)%bool.

Definition is_ascii (c : char) : bool := N.ltb c 128.

(** What every Unicode version guarantees on ASCII. *)
Record AsciiAgree (U : UnicodeDB) : Prop := {
  lower_ascii : forall s : str,
    forallb is_ascii s = true -> py_lower s = map ascii_lower_char s;
  isalnum_ascii : forall c : char,
    is_ascii c = true -> py_isalnum c = ascii_isalnum c
}.

(** The tables cut down to ASCII: characters outside ASCII have no case and
    are not alphanumeric.  Used to run the functions on ASCII inputs. *)
Definition ascii_db : UnicodeDB := {|
  py_lower := map ascii_lower_char;
  py_isalnum := fun c => (is_ascii c && ascii_isalnum c)%bool
|}.

(** ** The Python runtime, as far as the two functions use it *)

Module Py.

(** [Py_UNICODE_ISSPACE], the characters [str.strip()] removes. *)
Definition isspace (c : char) : bool :=
  (in_range 9 13 c || in_range 28 32 c || N.eqb c 133 || N.eqb c 160
   || N.eqb c 5760 || in_range 8192 8202 c || N.eqb c 8232
   || N.eqb c 8233 || N.eqb c 8239 || N.eqb c 8287 || N.eqb c 12288)%bool.

Fixpoint dropwhile (p : char -> bool) (s : str) : str :=
  match s with
  | [] => []
  | c :: r => if p c then dropwhile p r else s
  end.

Definition lstrip (p : char -> bool) (s : str) : str := dropwhile p s.

Definition rstrip (p : char -> bool) (s : str) : str :=
  rev (dropwhile p (rev s)).

(** [s.strip()] is [strip isspace s]; [s.strip("_")] is
    [strip (N.eqb US) s]. *)
Definition strip (p : char -> bool) (s : str) : str :=
  rstrip p (lstrip p s).

(** [s.replace(old, new)] for a one-character [old]. *)
Definition replace (old : char) (new : str) (s : str) : str :=
  flat_map (fun c => if N.eqb c old then new else [c]) s.

(** [s.split(sep)] for a one-character [sep]: never the empty list. *)
Fixpoint split (sep : char) (s : str) : list str :=
  match s with
  | [] => [[]]
  | c :: r =>
      if N.eqb c sep then [] :: split sep r
      else match split sep r with
           | [] => [[c]]
           | w :: ws => (c :: w) :: ws
           end
  end.

Fixpoint starts_with (p s : str) : bool :=
  match p, s with
  | [], _ => true
  | _ :: _, [] => false
  | a :: p', b :: s' => (N.eqb a b && starts_with p' s')%bool
  end.

(** [sub in s]: [sub] occurs in [s] at some position. *)
Fixpoint contains (sub s : str) : bool :=
  (starts_with sub s
   || match s with
      | [] => false
      | _ :: r => contains sub r
      end)%bool.

(** [any(x in s for x in xs)] *)
Definition any_in (xs : list str) (s : str) : bool :=
  existsb (fun x => contains x s) xs.

(** [len(s)] *)
Definition len (s : str) : Z := Z.of_nat (List.length s).

(** [s[:n]] for [n >= 0]. *)
Definition slice_to (n : nat) (s : str) : str := firstn n s.

(** [xs[k]]: a negative index counts from the end; [None] stands for the
    [IndexError] of an index out of range. *)
Definition getitem (A : Type) (xs : list A) (k : Z) : option A :=
  let n := Z.of_nat (List.length xs) in
  if (k <? 0)%Z then
    if (n + k <? 0)%Z then None else nth_error xs (Z.to_nat (n + k))
  else nth_error xs (Z.to_nat k).

(** [re.sub(cls, repl, s)] for a pattern that is one character class:
    every character in the class is a match. *)
Definition re_sub_class (cls : char -> bool) (repl : str) (s : str) : str :=
  flat_map (fun c => if cls c then repl else [c]) s.

(** [re.sub(cls+, repl, s)]: scanning from the left, a match starts at
    the first character in the class and, [+] being greedy, runs on as
    long as the characters are in the class; [in_match] says whether the
    previous character belonged to the match being consumed. *)
Fixpoint re_sub_plus_from (cls : char -> bool) (repl : str)
         (in_match : bool) (s : str) : str :=
  match s with
  | [] => []
  | c :: r =>
      if cls c then
        if in_match then re_sub_plus_from cls repl true r
        else repl ++ re_sub_plus_from cls repl true r
      else c :: re_sub_plus_from cls repl false r
  end.

Definition re_sub_plus (cls : char -> bool) (repl : str) (s : str) : str :=
  re_sub_plus_from cls repl false s.

(** [\w] of a [str] pattern. *)
Definition is_word {U : UnicodeDB} (c : char) : bool :=
  (py_isalnum c || N.eqb c US)%bool.

Definition is_word_opt {U : UnicodeDB} (c : option char) : bool :=
  match c with
  | Some c => is_word c
  | None => false
  end.

(** [\b] between the character [before] and the character [after] (each
    [None] at an end of the string): exactly one of them is a word
    character. *)
Definition word_boundary {U : UnicodeDB} (before after : option char) : bool :=
  xorb (is_word_opt before) (is_word_opt after).

(** A lowercase ASCII letter of a pattern under [re.IGNORECASE]: the
    matcher compares the simple lowercase of the text character, and for
    the letters of [by] and [from] only the letter itself and its ASCII
    capital have that lowercase. *)
Definition ieq (pat c : char) : bool :=
  N.eqb (ascii_lower_char c) pat.

(** The literal [w] of the pattern matches, ignoring case, at the start of
    [s]: the rest of [s] and the last character matched. *)
Fixpoint match_literal (w : str) (last : option char) (s : str)
  : option (option char * str) :=
  match w with
  | [] => Some (last, s)
  | a :: w' =>
      match s with
      | [] => None
      | c :: r => if ieq a c then match_literal w' (Some c) r else None
      end
  end.

(** [\b w \b] matches at the current position, [before] being the
    character in front of it. *)
Definition match_word {U : UnicodeDB} (w : str) (before : option char) (s : str) : bool :=
  (word_boundary before (hd_error s)
   && match match_literal w before s with
      | Some (last, r) => word_boundary last (hd_error r)
      | None => false
      end)%bool.

(** [re.search(r'\bw1\b|\bw2\b', s, re.IGNORECASE)] is not [None]: the
    alternatives are tried at every position from the left. *)
Fixpoint re_search_words_from {U : UnicodeDB} (ws : list str)
         (before : option char) (s : str) : bool :=
  (existsb (fun w => match_word w before s) ws
   || match s with
      | [] => false
      | c :: r => re_search_words_from ws (Some c) r
      end)%bool.

Definition re_search_words {U : UnicodeDB} (ws : list str) (s : str) : bool :=
  re_search_words_from ws None s.

(** [s == t] on strings. *)
Fixpoint str_eq (s t : str) : bool :=
  match s, t with
  | [], [] => true
  | a :: s', b :: t' => (N.eqb a b && str_eq s' t')%bool
  | _, _ => false
  end.

(** [s.endswith(suffix)] *)
Definition ends_with (suffix s : str) : bool :=
  starts_with (rev suffix) (rev s).

(** [s.endswith(suffixes)] for a tuple of suffixes. *)
Definition ends_with_any (suffixes : list str) (s : str) : bool :=
  existsb (fun suffix => ends_with suffix s) suffixes.

(** [s.rfind(c)] with the characters that count given by [p]: the index of
    the last one, or [-1]. *)
Fixpoint rfind (p : char -> bool) (s : str) : Z :=
  match s with
  | [] => (-1)%Z
  | c :: r =>
      let k := rfind p r in
      if (0 <=? k)%Z then (k + 1)%Z
      else if p c then 0%Z else (-1)%Z
  end.

(** [s[i:j]] for [0 <= i]. *)
Definition slice (i j : Z) (s : str) : str :=
  firstn (Z.to_nat j - Z.to_nat i) (skipn (Z.to_nat i) s).

(** [os.path.splitext(p)]: [seps] are the separators of the platform
    ([/], and [\] as well on Windows).  The extension starts at the last
    dot of the last component, unless only dots stand in front of it
    there. *)
Definition splitext (seps : list char) (p : str) : str * str :=
  let sepIndex := rfind (fun c => existsb (N.eqb c) seps) p in
  let dotIndex := rfind (fun c => N.eqb c DOT) p in
  if (sepIndex <? dotIndex)%Z then
    if forallb (fun c => N.eqb c DOT) (slice (sepIndex + 1) dotIndex p)
    then (p, [])
    else (firstn (Z.to_nat dotIndex) p, skipn (Z.to_nat dotIndex) p)
  else (p, []).

(** [s.rsplit(sep, 1)]: cut at the last [sep], if there is one. *)
Definition rsplit1 (sep : char) (s : str) : list str :=
  let k := rfind (fun c => N.eqb c sep) s in
  if (k <? 0)%Z then [s]
  else [firstn (Z.to_nat k) s; skipn (Z.to_nat k + 1) s].

Fixpoint uint_digits (d : Decimal.uint) : str :=
  match d with
  | Decimal.Nil => []
  | Decimal.D0 d => 48 :: uint_digits d
  | Decimal.D1 d => 49 :: uint_digits d
  | Decimal.D2 d => 50 :: uint_digits d
  | Decimal.D3 d => 51 :: uint_digits d
  | Decimal.D4 d => 52 :: uint_digits d
  | Decimal.D5 d => 53 :: uint_digits d
  | Decimal.D6 d => 54 :: uint_digits d
  | Decimal.D7 d => 55 :: uint_digits d
  | Decimal.D8 d => 56 :: uint_digits d
  | Decimal.D9 d => 57 :: uint_digits d
  end.

(** [str(n)] of an integer, as an f-string renders it. *)
Definition str_of_int (n : Z) : str :=
  match Z.to_int n with
  | Decimal.Pos d => uint_digits d
  | Decimal.Neg d => DASH :: uint_digits d
  end.

(** A [dict] with string keys, as the list of its items. *)
Fixpoint dict_get (A : Type) (d : list (str * A)) (k : str) : option A :=
  match d with
  | [] => None
  | (k', v) :: d' => if str_eq k k' then Some v else dict_get d' k
  end.

(** [d[k] = v] *)
Fixpoint dict_set (A : Type) (d : list (str * A)) (k : str) (v : A)
  : list (str * A) :=
  match d with
  | [] => [(k, v)]
  | (k', v') :: d' =>
      if str_eq k k' then (k, v) :: d' else (k', v') :: dict_set d' k v
  end.

End Py.

(** ** Control flow of a Python function body *)

(** What running a statement of a function body comes to: a [return] with
    a line, the end of the statement without one, or an [IndexError]. *)
Inductive flow : Type :=
| Return (line : str)
| Fallthrough
| RaiseIndexError.

(** Statement sequencing: the second runs only if the first fell through. *)
Definition and_then (a b : flow) : flow :=
  match a with
  | Fallthrough => b
  | _ => a
  end.

Notation "a ;; b" := (and_then a b) (at level 61, right associativity).

(** What a call of [extract_product_name] comes to: a value, which is a
    line or [None], or an exception. *)
Inductive outcome : Type :=
| Value (v : option str)
| Raised.

(** The end of the function body is [return None]. *)
Definition finish (f : flow) : outcome :=
  match f with
  | Return line => Value (Some line)
  | Fallthrough => Value None
  | RaiseIndexError => Raised
  end.

(** [5 < len(line) < 100] *)
Definition len_between (lo hi : Z) (line : str) : bool :=
  ((lo <? Py.len line)%Z && (Py.len line <? hi)%Z).

Definition nonempty (s : str) : bool :=
  match s with
  | [] => false
  | _ :: _ => true
  end.

(** ** [main.py] *)

Module Main.

(** The class [[a-zA-Z0-9_&-]]; the pattern of [clean_text] is its
    complement. *)
Definition filename_char (c : char) : bool :=
  (in_range 97 122 c || in_range 65 90 c || in_range 48 57 c
   || N.eqb c US || N.eqb c AMP || N.eqb c DASH).

Definition is_underscore (c : char) : bool := N.eqb c US.

Definition clean_text (text : str) : str :=
  let text := Py.replace NL [SP] (Py.strip Py.isspace text) in
  let text := Py.re_sub_class (fun c => negb (filename_char c)) [US] text in
  let text := Py.re_sub_plus is_underscore [US] text in
  let text := Py.strip is_underscore text in
  Py.slice_to 80 text.

Definition product_keywords : list str :=
  map lit ["oil"; "serum"; "cream"; "foundation"; "lotion"; "gel";
           "moisturizer"; "cleanser"; "toner"; "essence"; "mask";
           "balm"; "primer"; "powder"; "lipstick"; "mascara"]%string.

Definition exclude_phrases : list str :=
  map lit ["was evaluated"; "tested"; "description"; "ingredients";
           "how to use"; "directions"; "warning"; "caution"]%string.

Definition trigger_phrases : list str :=
  map lit ["was evaluated"; "tested for"; "test results"]%string.

Definition headers : list str :=
  map lit ["report"; "test"; "analysis"; "certificate"]%string.

(** [[line.strip() for line in text.split('\n') if line.strip()]] *)
Definition lines_of (text : str) : list str :=
  map (Py.strip Py.isspace)
      (filter (fun line => nonempty (Py.strip Py.isspace line))
              (Py.split NL text)).

Section Extractor.
Context {U : UnicodeDB}.

(** Strategy 1: the first [for] loop, over what is left of [lines]. *)
Fixpoint strategy1 (rest : list str) : flow :=
  match rest with
  | [] => Fallthrough
  | line :: rest' =>
      let line_lower := py_lower line in
      if Py.any_in product_keywords line_lower then
        if negb (Py.any_in exclude_phrases line_lower) then
          if len_between 5 100 line then Return line
          else strategy1 rest'
        else strategy1 rest'
      else strategy1 rest'
  end.

(** Strategy 2: the second loop, [enumerate] being at index [i] with
    [rest] still to come; [lines] is the whole list, for [lines[i-1]]. *)
Fixpoint strategy2 (lines : list str) (i : Z) (rest : list str) : flow :=
  match rest with
  | [] => Fallthrough
  | line :: rest' =>
      let line_lower := py_lower line in
      if Py.any_in trigger_phrases line_lower && (0 <? i)%Z then
        match Py.getitem lines (i - 1) with
        | None => RaiseIndexError
        | Some prev_line =>
            if (5 <? Py.len prev_line)%Z then Return prev_line
            else strategy2 lines (i + 1) rest'
        end
      else strategy2 lines (i + 1) rest'
  end.

(** Strategy 3: the third loop. *)
Fixpoint strategy3 (rest : list str) : flow :=
  match rest with
  | [] => Fallthrough
  | line :: rest' =>
      if Py.re_search_words [lit "by"; lit "from"] line then
        if (5 <? Py.len line)%Z && (Py.len line <? 100)%Z then Return line
        else strategy3 rest'
      else strategy3 rest'
  end.

(** Strategy 4: the last loop. *)
Fixpoint strategy4 (rest : list str) : flow :=
  match rest with
  | [] => Fallthrough
  | line :: rest' =>
      if (10 <? Py.len line)%Z && (Py.len line <? 100)%Z then
        if negb (Py.any_in headers (py_lower line)) then Return line
        else strategy4 rest'
      else strategy4 rest'
  end.

Definition extract_product_name (text : str) : outcome :=
  let lines := lines_of text in
  finish (strategy1 lines ;;
          strategy2 lines 0 lines ;;
          strategy3 lines ;;
          strategy4 lines).

End Extractor.

(** *** The batch of [main.py] *)

Definition VALID_EXTENSIONS : list str :=
  map lit [".png"; ".jpg"; ".jpeg"]%string.

(** What [shutil.copy2] comes to for one file: the copy is made, or an
    exception is raised, with or without a file left at the destination. *)
Inductive copy_outcome : Type :=
| Copied
| CopyRaised (leftover : bool).

(** An entry of [INPUT_FOLDER], with what the collaborators make of it:
    [Image.open] and [pytesseract.image_to_string] give a text or raise
    ([None]); [shutil.copy2] ends as [in_copy] says. *)
Record input_file : Type := {
  in_name : str;
  in_text : option str;
  in_copy : copy_outcome
}.

(** The variables of the loop of [rename_images]: the two counters, the
    names printed as saved, in order, and the entries of [OUTPUT_FOLDER]. *)
Record tally : Type := {
  processed : Z;
  skipped : Z;
  saved : list str;
  folder : list str
}.

(** How [rename_images] ends: with the warning that no image was found,
    or with the summary of processed, skipped and total. *)
Inductive run : Type :=
| NoImages (entries : list str)
| Summary (t : tally) (total : Z).

(** [create_output_folder]: a missing folder ([None]) is created empty. *)
Definition create_output_folder (out : option (list str)) : list str :=
  match out with
  | Some entries => entries
  | None => []
  end.

(** [os.path.exists(os.path.join(OUTPUT_FOLDER, name))] *)
Definition exists_in (entries : list str) (name : str) : bool :=
  existsb (Py.str_eq name) entries.

(** The [while os.path.exists(output_path)] loop, run for at most [fuel]
    tests of its condition; [None] when these do not suffice. *)
Fixpoint unused_name (fuel : nat) (entries : list str)
         (clean_name file_extension new_filename : str) (counter : Z)
  : option str :=
  match fuel with
  | O => None
  | S fuel' =>
      if exists_in entries new_filename then
        unused_name fuel' entries clean_name file_extension
          (clean_name ++ [US] ++ Py.str_of_int counter ++ file_extension)
          (counter + 1)
      else Some new_filename
  end.

Section Renaming.
Context {U : UnicodeDB}.

(** The separators of [os.path] on the platform. *)
Variable seps : list char.

Definition skip (t : tally) : tally :=
  {| processed := processed t; skipped := skipped t + 1;
     saved := saved t; folder := folder t |}.

(** The body of the [for filename in image_files] loop; every exception
    inside the [try] ends in [skipped += 1]. *)
Definition rename_one (fuel : nat) (t : tally) (f : input_file)
  : option tally :=
  match in_text f with
  | None => Some (skip t)
  | Some text =>
      match extract_product_name text with
      | Raised => Some (skip t)
      | Value None => Some (skip t)
      | Value (Some product_name) =>
          if negb (nonempty product_name) then Some (skip t)
          else
            let clean_name := clean_text product_name in
            if negb (nonempty clean_name) then Some (skip t)
            else
              let file_extension := snd (Py.splitext seps (in_name f)) in
              let new_filename := clean_name ++ file_extension in
              match unused_name fuel (folder t) clean_name file_extension
                      new_filename 1 with
              | None => None
              | Some new_filename =>
                  match in_copy f with
                  | Copied =>
                      Some {| processed := processed t + 1;
                              skipped := skipped t;
                              saved := saved t ++ [new_filename];
                              folder := new_filename :: folder t |}
                  | CopyRaised leftover =>
                      Some {| processed := processed t;
                              skipped := skipped t + 1;
                              saved := saved t;
                              folder := if leftover
                                        then new_filename :: folder t
                                        else folder t |}
                  end
              end
      end
  end.

Fixpoint rename_loop (fuel : nat) (t : tally) (image_files : list input_file)
  : option tally :=
  match image_files with
  | [] => Some t
  | f :: rest =>
      match rename_one fuel t f with
      | Some t' => rename_loop fuel t' rest
      | None => None
      end
  end.

(** [rename_images], on the output folder [out] ([None] when it does not
    exist yet) and the listing of the input folder. *)
Definition rename_images (fuel : nat) (out : option (list str))
           (listing : list input_file) : option run :=
  let entries := create_output_folder out in
  let image_files :=
    filter (fun f => Py.ends_with_any VALID_EXTENSIONS (py_lower (in_name f)))
           listing in
  match image_files with
  | [] => Some (NoImages entries)
  | _ :: _ =>
      match rename_loop fuel
              {| processed := 0; skipped := 0; saved := [];
                 folder := entries |} image_files with
      | Some t => Some (Summary t (Z.of_nat (List.length image_files)))
      | None => None
      end
  end.

End Renaming.

End Main.

(** ** [app.py] *)

Module App.

Definition clean_text (text : str) : str :=
  let text := Py.replace NL [SP] (Py.strip Py.isspace text) in
  let text :=
    Py.re_sub_class
      (fun c => negb (in_range 97 122 c || in_range 65 90 c
                      || in_range 48 57 c || N.eqb c US || N.eqb c AMP
                      || N.eqb c DASH)) [US] text in
  let text := Py.re_sub_plus (fun c => N.eqb c US) [US] text in
  let text := Py.strip (fun c => N.eqb c US) text in
  Py.slice_to 80 text.

Section Extractor.
Context {U : UnicodeDB}.

Definition product_keywords : list str :=
  map lit ["oil"; "serum"; "cream"; "foundation"; "lotion"; "gel";
           "moisturizer"; "cleanser"; "toner"; "essence"; "mask";
           "balm"; "primer"; "powder"; "lipstick"; "mascara"]%string.

Fixpoint keyword_loop (rest : list str) : flow :=
  match rest with
  | [] => Fallthrough
  | line :: rest' =>
      let line_lower := py_lower line in
      if Py.any_in product_keywords line_lower then
        let exclude_phrases :=
          map lit ["was evaluated"; "tested"; "description";
                   "ingredients"; "how to use"; "directions";
                   "warning"; "caution"]%string in
        if negb (Py.any_in exclude_phrases line_lower) then
          if len_between 5 100 line then Return line
          else keyword_loop rest'
        else keyword_loop rest'
      else keyword_loop rest'
  end.

Definition trigger_phrases : list str :=
  map lit ["was evaluated"; "tested for"; "test results"]%string.

Fixpoint trigger_loop (lines : list str) (i : Z) (rest : list str) : flow :=
  match rest with
  | [] => Fallthrough
  | line :: rest' =>
      let line_lower := py_lower line in
      if Py.any_in trigger_phrases line_lower && (0 <? i)%Z then
        match Py.getitem lines (i - 1) with
        | None => RaiseIndexError
        | Some prev_line =>
            if (5 <? Py.len prev_line)%Z then Return prev_line
            else trigger_loop lines (i + 1) rest'
        end
      else trigger_loop lines (i + 1) rest'
  end.

Fixpoint by_from_loop (rest : list str) : flow :=
  match rest with
  | [] => Fallthrough
  | line :: rest' =>
      if Py.re_search_words [lit "by"; lit "from"] line then
        if (5 <? Py.len line)%Z && (Py.len line <? 100)%Z then Return line
        else by_from_loop rest'
      else by_from_loop rest'
  end.

Fixpoint fallback_loop (rest : list str) : flow :=
  match rest with
  | [] => Fallthrough
  | line :: rest' =>
      if (10 <? Py.len line)%Z && (Py.len line <? 100)%Z then
        if negb (Py.any_in
                   (map lit ["report"; "test"; "analysis";
                             "certificate"]%string)
                   (py_lower line))
        then Return line
        else fallback_loop rest'
      else fallback_loop rest'
  end.

Definition extract_product_name (text : str) : outcome :=
  let lines :=
    map (Py.strip Py.isspace)
        (filter (fun line => nonempty (Py.strip Py.isspace line))
                (Py.split NL text)) in
  finish (keyword_loop lines ;;
          trigger_loop lines 0 lines ;;
          by_from_loop lines ;;
          fallback_loop lines).

End Extractor.

(** *** The upload page of [app.py] *)

(** An opened image, with what the collaborators make of it:
    [pytesseract.image_to_string] gives a text or raises ([None]), and
    [image.save] gives the bytes of the file or raises ([None]). *)
Record image : Type := {
  img_text : option str;
  img_saved : option bytes
}.

(** An uploaded file: its name, and the image [Image.open] gives, or
    [None] when it raises. *)
Record upload : Type := {
  up_name : str;
  up_image : option image
}.

Section Uploads.
Context {U : UnicodeDB}.

(** [process_image]: the pair of the new file name and the bytes, or
    [None] for the pair [(None, None)]; any exception ends in the latter. *)
Definition process_image (image : image) (original_filename : str)
  : option (str * bytes) :=
  match img_text image with
  | None => None
  | Some text =>
      match extract_product_name text with
      | Raised => None
      | Value None => None
      | Value (Some product_name) =>
          if negb (nonempty product_name) then None
          else
            let clean_name := clean_text product_name in
            if negb (nonempty clean_name) then None
            else
              match Py.getitem (Py.split DOT original_filename) (-1) with
              | None => None
              | Some file_extension =>
                  let new_filename := clean_name ++ [DOT] ++ file_extension in
                  match img_saved image with
                  | None => None
                  | Some img_bytes => Some (new_filename, img_bytes)
                  end
              end
      end
  end.

(** The loop over the uploaded files; [None] when [Image.open] raises,
    which nothing catches. *)
Fixpoint process_uploads (uploaded_files : list upload)
         (processed_images : list (str * bytes)) (failed_count : Z)
  : option (list (str * bytes) * Z) :=
  match uploaded_files with
  | [] => Some (processed_images, failed_count)
  | uploaded_file :: rest =>
      match up_image uploaded_file with
      | None => None
      | Some image =>
          match process_image image (up_name uploaded_file) with
          | Some (new_filename, img_bytes) =>
              if nonempty new_filename && nonempty img_bytes then
                process_uploads rest
                  (processed_images ++ [(new_filename, img_bytes)])
                  failed_count
              else process_uploads rest processed_images (failed_count + 1)
          | None => process_uploads rest processed_images (failed_count + 1)
          end
      end
  end.

End Uploads.

(** The loop that fills the ZIP archive: the entries written, in order, or
    [None] when an index or a key is missing. *)
Fixpoint zip_entries (used_names : list (str * Z))
         (processed_images : list (str * bytes))
  : option (list (str * bytes)) :=
  match processed_images with
  | [] => Some []
  | (filename, img_bytes) :: rest =>
      match Py.dict_get used_names filename with
      | Some n =>
          let used_names := Py.dict_set used_names filename (n + 1)%Z in
          let name_parts := Py.rsplit1 DOT filename in
          match Py.getitem name_parts 0,
                Py.dict_get used_names filename,
                Py.getitem name_parts 1 with
          | Some stem, Some count, Some ext =>
              match zip_entries used_names rest with
              | Some entries =>
                  Some ((stem ++ [US] ++ Py.str_of_int count ++ [DOT] ++ ext,
                         img_bytes) :: entries)
              | None => None
              end
          | _, _, _ => None
          end
      | None =>
          match zip_entries (Py.dict_set used_names filename 0%Z) rest with
          | Some entries => Some ((filename, img_bytes) :: entries)
          | None => None
          end
      end
  end.

End App.

(** ** The specification's wording *)

Module Spec.

(** Step 1 and step 5: strip at both ends. *)
Fixpoint strip_trailing (p : char -> bool) (s : str) : str :=
  match s with
  | [] => []
  | c :: r =>
      match strip_trailing p r with
      | [] => if p c then [] else [c]
      | r' => c :: r'
      end
  end.

Fixpoint strip_leading (p : char -> bool) (s : str) : str :=
  match s with
  | [] => []
  | c :: r => if p c then strip_leading p r else c :: r
  end.

Definition strip_both (p : char -> bool) (s : str) : str :=
  strip_trailing p (strip_leading p s).

(** Step 2: every newline becomes one space. *)
Definition newlines_to_spaces (s : str) : str :=
  map (fun c => if N.eqb c NL then SP else c) s.

(** The set {a-z, A-Z, 0-9, _, &, -}, letter by letter. *)
Definition permitted : str :=
  lit "abcdefghijklmnopqrstuvwxyzABCDEFGHIJKLMNOPQRSTUVWXYZ0123456789_&-".

Definition is_permitted (c : char) : bool := existsb (N.eqb c) permitted.

(** Step 3: every character outside the set becomes an underscore. *)
Definition replace_unpermitted (s : str) : str :=
  map (fun c => if is_permitted c then c else US) s.

(** Step 4: of every maximal run of underscores one underscore is left;
    an underscore followed by another one is dropped. *)
Fixpoint collapse_underscores (s : str) : str :=
  match s with
  | [] => []
  | c :: r =>
      match r with
      | d :: _ =>
          if N.eqb c US && N.eqb d US then collapse_underscores r
          else c :: collapse_underscores r
      | [] => [c]
      end
  end.

(** Step 6: at most 80 characters are kept. *)
Definition truncate (n : nat) (s : str) : str :=
  if Nat.leb (List.length s) n then s else firstn n s.

(** The six steps of the sanitizer, in order. *)
Definition clean_text_steps (s : str) : str :=
  let s1 := strip_both Py.isspace s in
  let s2 := newlines_to_spaces s1 in
  let s3 := replace_unpermitted s2 in
  let s4 := collapse_underscores s3 in
  let s5 := strip_both (fun c => N.eqb c US) s4 in
  truncate 80 s5.

(** A sanitized name, but for the bound on its length. *)
Definition no_double_underscore (t : str) : Prop :=
  forall pre post : str, t <> pre ++ [US; US] ++ post.

Definition no_leading_underscore (t : str) : Prop :=
  forall r : str, t <> US :: r.

Definition no_trailing_underscore (t : str) : Prop :=
  forall r : str, t <> r ++ [US].

(** [occ] is the word [w] (in lowercase ASCII letters) up to the case of
    its letters. *)
Definition same_word (w occ : str) : Prop :=
  Forall2 (fun a c => c = a \/ c + 32 = a) w occ.

(** [w] occurs in [line] as a whole word: no word character touches the
    occurrence on either side. *)
Definition whole_word {U : UnicodeDB} (w line : str) : Prop :=
  exists pre occ post : str,
    line = pre ++ occ ++ post /\ same_word w occ
    /\ (forall p c, pre = p ++ [c] -> Py.is_word c = false)
    /\ (forall c r, post = c :: r -> Py.is_word c = false).

End Spec.

(** ** Auxiliary notions *)

(** [t] is a slice of [s]. *)
Definition infix (t s : str) : Prop :=
  exists a b : str, s = a ++ t ++ b.

(** Two underscores in a row somewhere in [s]. *)
Fixpoint has_double_underscore (s : str) : bool :=
  match s with
  | [] => false
  | c :: r =>
      (N.eqb c US && match r with d :: _ => N.eqb d US | [] => false end)
      || has_double_underscore r
  end.

(** [clean_text] up to its last step, the slice [[:80]]. *)
Definition scrubbed (text : str) : str :=
  Py.strip Main.is_underscore
    (Py.re_sub_plus Main.is_underscore [US]
       (Py.re_sub_class (fun c => negb (Main.filename_char c)) [US]
          (Py.replace NL [SP] (Py.strip Py.isspace text)))).

(** The four properties of a sanitized name other than its length. *)
Record sanitized (t : str) : Prop := {
  san_chars : Forall (fun c => In c Spec.permitted) t;
  san_double : Spec.no_double_underscore t;
  san_leading : Spec.no_leading_underscore t;
  san_trailing : Spec.no_trailing_underscore t
}.

(** The first element of [lines] that satisfies [P] is returned; without
    one the loop falls through. *)
Definition first_such (P : str -> bool) (lines : list str) : flow :=
  match find P lines with
  | Some line => Return line
  | None => Fallthrough
  end.

(** [line] is the first element of [lines] that satisfies [P]. *)
Definition first_match (P : str -> bool) (lines : list str) (line : str) : Prop :=
  exists pre post : list str,
    lines = pre ++ line :: post /\ P line = true
    /\ forall x, In x pre -> P x = false.

(** The element in front of the position reached after [pre], [before]
    being the one in front of [pre]. *)
Fixpoint last_or (A : Type) (before : option A) (pre : list A) : option A :=
  match pre with
  | [] => before
  | c :: r => last_or (Some c) r
  end.

(** A word of a pattern in lowercase ASCII letters, at least one. *)
Definition lowercase_word (w : str) : Prop :=
  w <> [] /\ Forall (fun a => 97 <= a <= 122) w.

Section Criteria.
Context {U : UnicodeDB}.

(** The lowercase form of the line contains a product keyword. *)
Definition has_keyword (line : str) : bool :=
  Py.any_in Main.product_keywords (py_lower line).

(** The lowercase form of the line contains an exclusion phrase. *)
Definition has_exclusion (line : str) : bool :=
  Py.any_in Main.exclude_phrases (py_lower line).

(** The lowercase form of the line contains a trigger phrase. *)
Definition has_trigger (line : str) : bool :=
  Py.any_in Main.trigger_phrases (py_lower line).

(** The lowercase form of the line contains a header word. *)
Definition has_header (line : str) : bool :=
  Py.any_in Main.headers (py_lower line).

(** What Strategy 1 asks of a line. *)
Definition keyword_line (line : str) : bool :=
  has_keyword line && negb (has_exclusion line) && len_between 5 100 line.

(** What Strategy 3 asks of a line. *)
Definition attribution_line (line : str) : bool :=
  Py.re_search_words [lit "by"; lit "from"] line && len_between 5 100 line.

(** What Strategy 4 asks of a line. *)
Definition fallback_line (line : str) : bool :=
  len_between 10 100 line && negb (has_header line).

(** Strategy 2 seen as a scan over adjacent lines: [prev] is the line in
    front of [rest], if there is one. *)
Fixpoint trigger_scan (prev : option str) (rest : list str) : flow :=
  match rest with
  | [] => Fallthrough
  | line :: rest' =>
      match prev with
      | Some p =>
          if has_trigger line && (5 <? Py.len p)%Z then Return p
          else trigger_scan (Some line) rest'
      | None => trigger_scan (Some line) rest'
      end
  end.

End Criteria.

(** The inputs the specification names. *)
Definition text_vitamin : str :=
  lit "Vitamin C Serum" ++ [NL] ++ lit "Brand X Serum was evaluated".

Definition text_blank : str := lit "   " ++ [NL; NL] ++ lit "  ".

(** A character, if there is one, is ASCII. *)
Definition ascii_opt (o : option char) : Prop :=
  forall c, o = Some c -> is_ascii c = true.

(** 79 letters [a], an underscore and a [b]: one line of 81 characters. *)
Definition text_long_name : str := repeat 97 79 ++ lit "_b".

Definition text_bystander : str := lit "Bystander Corp Products".

Definition text_night_repair : str := lit "Night Repair by Luna".

Definition text_acme : str :=
  lit "Acme Widget 3000" ++ [NL] ++ lit "It was evaluated in March".


(** A character that survives [clean_text] as itself and is not an
    underscore: a letter, a digit, [&] or [-]. *)
Definition name_char (c : char) : bool :=
  (in_range 97 122 c || in_range 65 90 c || in_range 48 57 c
   || N.eqb c AMP || N.eqb c DASH).


(** The number of elements of [seen] equal to [name]. *)
Fixpoint times_seen (name : str) (seen : list str) : nat :=
  match seen with
  | [] => O
  | x :: r => if Py.str_eq name x then S (times_seen name r)
              else times_seen name r
  end.

(** The name of a ZIP entry for a file name met [k] times before: the name
    itself the first time, then the name with [_k] in front of its last
    dot. *)
Definition entry_name (filename : str) (k : nat) : str :=
  match k with
  | O => filename
  | S _ =>
      let dot := Z.to_nat (Py.rfind (fun c => N.eqb c DOT) filename) in
      firstn dot filename ++ [US] ++ Py.str_of_int (Z.of_nat k) ++ [DOT]
        ++ skipn (dot + 1) filename
  end.

(** The entries of the ZIP archive, each named after the number of
    earlier images with its name; [seen] holds the names already met. *)
Fixpoint zip_plan (seen : list str) (processed_images : list (str * bytes))
  : list (str * bytes) :=
  match processed_images with
  | [] => []
  | (filename, img_bytes) :: rest =>
      (entry_name filename (times_seen filename seen), img_bytes)
        :: zip_plan (filename :: seen) rest
  end.

(** What the loop keeps: the counters add up to the number of files done,
    the saved names are as many as [processed] counts, they are pairwise
    distinct, all in the folder, none among the entries [entries0] the
    folder had at the start, and no entry has left the folder. *)
Definition loop_invariant (entries0 : list str) (done : Z) (t : Main.tally) : Prop :=
  (Main.processed t + Main.skipped t = done)%Z
  /\ Main.processed t = Z.of_nat (List.length (Main.saved t))
  /\ NoDup (Main.saved t)
  /\ (forall n, In n (Main.saved t) ->
                In n (Main.folder t) /\ ~ In n entries0)
  /\ incl entries0 (Main.folder t).




(** The dictionary [used_names] after the names [seen]: a name met
    [n + 1] times is mapped to [n], a name not met has no item. *)
Definition dict_agrees (used_names : list (str * Z)) (seen : list str) : Prop :=
  forall name : str,
    Py.dict_get used_names name
    = match times_seen name seen with
      | O => None
      | S n => Some (Z.of_nat n)
      end.

(** A file name with a dot in it. *)
Definition has_dot (entry : str * bytes) : Prop := In DOT (fst entry).

Definition images_twice : list (str * bytes) :=
  [(lit "Serum.png", [1]); (lit "Serum.png", [2])].

(** Inputs for the examples of the batch. *)
Definition file_serum : Main.input_file :=
  {| Main.in_name := lit "IMG_0001.png";
     Main.in_text := Some (lit "Vitamin C Serum");
     Main.in_copy := Main.Copied |}.

Definition image_serum : App.image :=
  {| App.img_text := Some (lit "Vitamin C Serum");
     App.img_saved := Some [137; 80; 78; 71] |}.

Definition upload_serum : App.upload :=
  {| App.up_name := lit "IMG_0001.png"; App.up_image := Some image_serum |}.

(** * Properties *)

(** ** Stripping, replacing and collapsing *)

Section StringFacts.

Variable p : char -> bool.

Lemma infix_refl (s : str) : infix s s.
Proof. exists [], []. now rewrite app_nil_r. Qed.

Lemma infix_trans (t u s : str) : infix t u -> infix u s -> infix t s.
Proof.
  intros (a & b & ->) (c & d & ->).
  exists (c ++ a), (b ++ d). now rewrite <- !app_assoc.
Qed.

Lemma infix_length (t s : str) : infix t s -> (List.length t <= List.length s)%nat.
Proof. intros (a & b & ->). rewrite !length_app. lia. Qed.

Lemma infix_Forall (Q : char -> Prop) (t s : str) :
  infix t s -> Forall Q s -> Forall Q t.
Proof.
  intros (a & b & ->) H.
  apply Forall_app in H as [_ H]. now apply Forall_app in H as [H _].
Qed.

Lemma dropwhile_split (s : str) :
  exists a : str, s = a ++ Py.dropwhile p s /\ forallb p a = true.
Proof.
  induction s as [|c r (a & E & Ha)]; simpl.
  - now exists [].
  - destruct (p c) eqn:Hc.
    + exists (c :: a). simpl. rewrite Hc, Ha. now rewrite E at 1.
    + now exists [].
Qed.

Lemma dropwhile_head (s : str) (c : char) (r : str) :
  Py.dropwhile p s = c :: r -> p c = false.
Proof.
  induction s as [|d s IH]; simpl; [discriminate|].
  destruct (p d) eqn:Hd; [exact IH|].
  intros [= <- _]. exact Hd.
Qed.

Lemma dropwhile_id (s : str) :
  (forall c r, s = c :: r -> p c = false) -> Py.dropwhile p s = s.
Proof.
  destruct s as [|c r]; [reflexivity|]. simpl. intros H.
  now rewrite (H c r eq_refl).
Qed.

Lemma dropwhile_infix (s : str) : infix (Py.dropwhile p s) s.
Proof.
  destruct (dropwhile_split s) as (a & E & _).
  exists a, []. now rewrite app_nil_r.
Qed.

Lemma rstrip_split (s : str) :
  exists b : str, s = Py.rstrip p s ++ b /\ forallb p b = true.
Proof.
  unfold Py.rstrip. destruct (dropwhile_split (rev s)) as (a & E & Ha).
  exists (rev a). split.
  - rewrite <- rev_app_distr, <- E. now rewrite rev_involutive.
  - rewrite forallb_forall in *. intros x Hx. apply Ha. now apply in_rev.
Qed.

Lemma rstrip_last (s r : str) (c : char) :
  Py.rstrip p s = r ++ [c] -> p c = false.
Proof.
  unfold Py.rstrip. intros H.
  apply (f_equal (@rev char)) in H.
  rewrite rev_involutive, rev_app_distr in H. simpl in H.
  eapply dropwhile_head; eassumption.
Qed.

Lemma rstrip_id (s : str) :
  (forall r c, s = r ++ [c] -> p c = false) -> Py.rstrip p s = s.
Proof.
  intros H. unfold Py.rstrip. rewrite dropwhile_id.
  - apply rev_involutive.
  - intros c r E. apply (H (rev r) c).
    rewrite <- (rev_involutive s), E. reflexivity.
Qed.

Lemma rstrip_infix (s : str) : infix (Py.rstrip p s) s.
Proof.
  destruct (rstrip_split s) as (b & E & _). now exists [], b.
Qed.

Lemma strip_infix (s : str) : infix (Py.strip p s) s.
Proof.
  unfold Py.strip, Py.lstrip.
  eapply infix_trans; [apply rstrip_infix | apply dropwhile_infix].
Qed.

Lemma strip_head (s : str) (c : char) (r : str) :
  Py.strip p s = c :: r -> p c = false.
Proof.
  unfold Py.strip, Py.lstrip. intros H.
  destruct (rstrip_split (Py.dropwhile p s)) as (b & E & _).
  rewrite H in E. simpl in E. eapply dropwhile_head; eassumption.
Qed.

Lemma strip_last (s r : str) (c : char) :
  Py.strip p s = r ++ [c] -> p c = false.
Proof. unfold Py.strip. apply rstrip_last. Qed.

Lemma strip_id (s : str) :
  (forall c r, s = c :: r -> p c = false) ->
  (forall r c, s = r ++ [c] -> p c = false) ->
  Py.strip p s = s.
Proof.
  intros Hh Hl. unfold Py.strip, Py.lstrip.
  rewrite dropwhile_id by exact Hh. now apply rstrip_id.
Qed.

End StringFacts.

(** ** The character class of [clean_text] *)

Lemma permitted_ascii : forallb is_ascii Spec.permitted = true.
Proof. reflexivity. Qed.

Lemma filename_char_ascii (c : char) :
  Main.filename_char c = true -> is_ascii c = true.
Proof.
  unfold Main.filename_char, in_range, is_ascii, US, AMP, DASH.
  rewrite !orb_true_iff, !andb_true_iff, !N.leb_le, !N.eqb_eq, N.ltb_lt.
  lia.
Qed.

Lemma is_permitted_ascii (c : char) :
  Spec.is_permitted c = true -> is_ascii c = true.
Proof.
  unfold Spec.is_permitted. rewrite existsb_exists.
  intros (x & Hx & E). apply N.eqb_eq in E. subst x.
  pose proof permitted_ascii as H. rewrite forallb_forall in H. now apply H.
Qed.

Lemma class_agrees_below_128 :
  forallb (fun n => Bool.eqb (Main.filename_char (N.of_nat n))
                             (Spec.is_permitted (N.of_nat n)))
          (seq 0 128) = true.
Proof. vm_compute. reflexivity. Qed.

(** The class written with ranges is the set the specification lists. *)
Lemma filename_char_permitted (c : char) :
  Main.filename_char c = Spec.is_permitted c.
Proof.
  destruct (is_ascii c) eqn:Ha.
  - pose proof class_agrees_below_128 as H. rewrite forallb_forall in H.
    unfold is_ascii in Ha. apply N.ltb_lt in Ha.
    specialize (H (N.to_nat c)). rewrite N2Nat.id in H.
    apply eqb_prop, H, in_seq. lia.
  - destruct (Main.filename_char c) eqn:Hf.
    + apply filename_char_ascii in Hf. congruence.
    + destruct (Spec.is_permitted c) eqn:Hp; [|reflexivity].
      apply is_permitted_ascii in Hp. congruence.
Qed.

Lemma is_permitted_In (c : char) :
  Spec.is_permitted c = true <-> In c Spec.permitted.
Proof.
  unfold Spec.is_permitted. rewrite existsb_exists. split.
  - intros (x & Hx & E). apply N.eqb_eq in E. now subst.
  - intros H. exists c. split; [exact H | apply N.eqb_refl].
Qed.

Lemma permitted_not_space (c : char) :
  In c Spec.permitted -> Py.isspace c = false.
Proof.
  intros H. pose proof (eq_refl : forallb (fun c => negb (Py.isspace c)) Spec.permitted = true) as A.
  rewrite forallb_forall in A. apply A in H. now apply negb_true_iff in H.
Qed.

Lemma permitted_not_newline (c : char) :
  In c Spec.permitted -> N.eqb c NL = false.
Proof.
  intros H. pose proof (eq_refl : forallb (fun c => negb (N.eqb c NL)) Spec.permitted = true) as A.
  rewrite forallb_forall in A. apply A in H. now apply negb_true_iff in H.
Qed.

(** ** The steps of [clean_text] *)

Lemma replace_char_map (old new : char) (s : str) :
  Py.replace old [new] s = map (fun c => if N.eqb c old then new else c) s.
Proof.
  unfold Py.replace. induction s as [|c r IH]; simpl; [reflexivity|].
  rewrite IH. now destruct (N.eqb c old).
Qed.

Lemma re_sub_class_map (cls : char -> bool) (u : char) (s : str) :
  Py.re_sub_class cls [u] s = map (fun c => if cls c then u else c) s.
Proof.
  unfold Py.re_sub_class. induction s as [|c r IH]; simpl; [reflexivity|].
  rewrite IH. now destruct (cls c).
Qed.

Lemma re_sub_class_permitted (s : str) :
  Forall (fun c => In c Spec.permitted)
         (Py.re_sub_class (fun c => negb (Main.filename_char c)) [US] s).
Proof.
  rewrite re_sub_class_map. apply Forall_forall. intros x Hx.
  apply in_map_iff in Hx as (c & <- & _).
  apply is_permitted_In. rewrite <- filename_char_permitted.
  now destruct (Main.filename_char c) eqn:E.
Qed.

Lemma re_sub_plus_from_Forall (Q : char -> Prop) (b : bool) (s : str) :
  Q US -> Forall Q s ->
  Forall Q (Py.re_sub_plus_from Main.is_underscore [US] b s).
Proof.
  intros HU H. revert b. induction H as [|c r Hc Hr IH]; intros b; simpl.
  - constructor.
  - destruct (Main.is_underscore c).
    + destruct b; [apply IH|]. simpl. constructor; [exact HU | apply IH].
    + constructor; [exact Hc | apply IH].
Qed.

Lemma re_sub_plus_from_length (cls : char -> bool) (u : char) (b : bool) (s : str) :
  (List.length (Py.re_sub_plus_from cls [u] b s) <= List.length s)%nat.
Proof.
  revert b. induction s as [|c r IH]; intros b; simpl; [lia|].
  destruct (cls c).
  - destruct b; simpl.
    + specialize (IH true). lia.
    + specialize (IH true). lia.
  - simpl. specialize (IH false). lia.
Qed.

Lemma has_double_underscore_cons (c : char) (r : str) :
  has_double_underscore (c :: r)
  = (N.eqb c US && match r with d :: _ => N.eqb d US | [] => false end)
    || has_double_underscore r.
Proof. reflexivity. Qed.

(** After [re.sub("_+", "_", ...)] no two underscores are adjacent; and
    when the scan is inside a match, what it still emits does not begin
    with an underscore. *)
Lemma re_sub_plus_from_no_double (b : bool) (s : str) :
  has_double_underscore (Py.re_sub_plus_from Main.is_underscore [US] b s) = false
  /\ (b = true ->
      forall r, Py.re_sub_plus_from Main.is_underscore [US] b s <> US :: r).
Proof.
  revert b. induction s as [|c s IH]; intros b.
  - split; [reflexivity | discriminate].
  - cbn [Py.re_sub_plus_from]. destruct (Main.is_underscore c) eqn:Hc.
    + destruct (IH true) as [Hd Hh]. destruct b.
      * split; [exact Hd | intros _; now apply Hh].
      * split; [|discriminate].
        change ([US] ++ ?x) with (US :: x).
        rewrite has_double_underscore_cons, Hd, orb_false_r.
        destruct (Py.re_sub_plus_from Main.is_underscore [US] true s) as [|d t] eqn:E;
          [now rewrite andb_false_r|].
        destruct (N.eqb d US) eqn:Hd'; [|now rewrite andb_false_r].
        apply N.eqb_eq in Hd'. subst d. now elim (Hh eq_refl t).
    + destruct (IH false) as [Hd _]. split.
      * rewrite has_double_underscore_cons, Hd, orb_false_r.
        unfold Main.is_underscore in Hc. now rewrite Hc.
      * intros _ r [= E _]. unfold Main.is_underscore in Hc.
        subst c. now rewrite N.eqb_refl in Hc.
Qed.

(** A string without two adjacent underscores has no match longer than one
    character, so the substitution leaves it as it is. *)
Lemma re_sub_plus_from_id (s : str) :
  has_double_underscore s = false ->
  Py.re_sub_plus_from Main.is_underscore [US] false s = s
  /\ ((forall r, s <> US :: r) ->
      Py.re_sub_plus_from Main.is_underscore [US] true s = s).
Proof.
  induction s as [|c s IH]; [now split|].
  rewrite has_double_underscore_cons. intros H.
  apply orb_false_iff in H as [H1 H2].
  destruct (IH H2) as [IHf IHt].
  cbn [Py.re_sub_plus_from].
  replace (Main.is_underscore c) with (N.eqb c US) by reflexivity.
  destruct (N.eqb c US) eqn:Hc.
  - apply N.eqb_eq in Hc. subst c. split.
    + change ([US] ++ ?x) with (US :: x). f_equal. apply IHt. intros r ->.
      now rewrite !N.eqb_refl in H1.
    + intros Hn. now elim (Hn s).
  - split; intros; now rewrite IHf.
Qed.

Lemma has_double_underscore_spec (t : str) :
  has_double_underscore t = false <-> Spec.no_double_underscore t.
Proof.
  unfold Spec.no_double_underscore. split.
  - intros H pre post ->. induction pre as [|c pre IH].
    + cbn [app] in H. rewrite has_double_underscore_cons in H.
      now rewrite !N.eqb_refl in H.
    + cbn [app] in H. rewrite has_double_underscore_cons in H.
      apply orb_false_iff in H as [_ H]. now apply IH.
  - induction t as [|c t IH]; intros H; [reflexivity|].
    rewrite has_double_underscore_cons. apply orb_false_iff. split.
    + destruct (N.eqb c US) eqn:Hc; [|reflexivity].
      destruct t as [|d t]; [reflexivity|].
      destruct (N.eqb d US) eqn:Hd; [|reflexivity].
      apply N.eqb_eq in Hc, Hd. subst. now elim (H [] t).
    + apply IH. intros pre post ->. now apply (H (c :: pre) post).
Qed.

Lemma no_double_underscore_infix (t s : str) :
  infix t s -> Spec.no_double_underscore s -> Spec.no_double_underscore t.
Proof.
  intros (a & b & ->) H pre post ->.
  apply (H (a ++ pre) (post ++ b)). now rewrite <- !app_assoc.
Qed.

Lemma firstn_infix (n : nat) (s : str) : infix (firstn n s) s.
Proof. exists [], (skipn n s). apply eq_sym, firstn_skipn. Qed.

Lemma firstn_whole (n : nat) (s : str) :
  (List.length s <= n)%nat -> firstn n s = s.
Proof. apply firstn_all2. Qed.

(** ** [clean_text] before the final slice *)

Lemma clean_text_scrubbed (s : str) :
  Main.clean_text s = firstn 80 (scrubbed s).
Proof. reflexivity. Qed.

Lemma scrubbed_length (s : str) :
  (List.length (scrubbed s) <= List.length s)%nat.
Proof.
  unfold scrubbed.
  etransitivity; [apply infix_length, strip_infix|].
  unfold Py.re_sub_plus.
  etransitivity; [apply re_sub_plus_from_length|].
  rewrite re_sub_class_map, replace_char_map, !length_map.
  apply infix_length, strip_infix.
Qed.

Lemma scrubbed_sanitized (s : str) : sanitized (scrubbed s).
Proof.
  unfold scrubbed.
  set (t := Py.re_sub_class _ _ _).
  set (u := Py.re_sub_plus _ _ t).
  assert (Hu : Forall (fun c => In c Spec.permitted) u).
  { apply re_sub_plus_from_Forall.
    - now apply is_permitted_In.
    - apply re_sub_class_permitted. }
  assert (Hd : Spec.no_double_underscore u).
  { apply has_double_underscore_spec, re_sub_plus_from_no_double. }
  constructor.
  - eapply infix_Forall; [apply strip_infix | exact Hu].
  - eapply no_double_underscore_infix; [apply strip_infix | exact Hd].
  - intros r E. apply strip_head in E. now compute in E.
  - intros r E. apply strip_last in E. now compute in E.
Qed.

Lemma sanitized_infix_front (n : nat) (t : str) :
  sanitized t ->
  Forall (fun c => In c Spec.permitted) (firstn n t)
  /\ Spec.no_double_underscore (firstn n t)
  /\ Spec.no_leading_underscore (firstn n t).
Proof.
  intros [Hc Hd Hl Ht]. repeat split.
  - eapply infix_Forall; [apply firstn_infix | exact Hc].
  - eapply no_double_underscore_infix; [apply firstn_infix | exact Hd].
  - intros r E. destruct t as [|c t]; destruct n; try discriminate.
    simpl in E. injection E as -> _. now apply (Hl t).
Qed.

(** A sanitized name is left as it is by every step before the slice. *)
Lemma sanitized_fixed (t : str) : sanitized t -> scrubbed t = t.
Proof.
  intros [Hc Hd Hl Ht]. unfold scrubbed.
  assert (E1 : Py.strip Py.isspace t = t).
  { apply strip_id.
    - intros c r ->. apply permitted_not_space.
      now apply Forall_inv in Hc.
    - intros r c ->. apply permitted_not_space.
      apply Forall_app in Hc as [_ Hc]. now apply Forall_inv in Hc. }
  rewrite E1.
  assert (E2 : Py.replace NL [SP] t = t).
  { rewrite replace_char_map. rewrite <- (map_id t) at 2.
    apply map_ext_in. intros c Hin.
    rewrite Forall_forall in Hc. now rewrite permitted_not_newline by auto. }
  rewrite E2.
  assert (E3 : Py.re_sub_class (fun c => negb (Main.filename_char c)) [US] t = t).
  { rewrite re_sub_class_map. rewrite <- (map_id t) at 2.
    apply map_ext_in. intros c Hin.
    rewrite Forall_forall in Hc. apply Hc, is_permitted_In in Hin.
    now rewrite filename_char_permitted, Hin. }
  rewrite E3.
  assert (E4 : Py.re_sub_plus Main.is_underscore [US] t = t).
  { apply re_sub_plus_from_id. now apply has_double_underscore_spec. }
  rewrite E4.
  apply strip_id.
  - intros c r -> . destruct (Main.is_underscore c) eqn:E; [|reflexivity].
    apply N.eqb_eq in E. subst c. now elim (Hl r).
  - intros r c ->. destruct (Main.is_underscore c) eqn:E; [|reflexivity].
    apply N.eqb_eq in E. subst c. now elim (Ht r).
Qed.

(** What holds of every result of [clean_text]: the bound on the length,
    the character set, no two adjacent underscores, no leading one. *)
Lemma clean_text_shape (s : str) :
  (List.length (Main.clean_text s) <= 80)%nat
  /\ Forall (fun c => In c Spec.permitted) (Main.clean_text s)
  /\ Spec.no_double_underscore (Main.clean_text s)
  /\ Spec.no_leading_underscore (Main.clean_text s).
Proof.
  rewrite clean_text_scrubbed. split.
  - apply firstn_le_length.
  - apply sanitized_infix_front, scrubbed_sanitized.
Qed.

(** Where the slice cuts nothing off, the result is a sanitized name. *)
Lemma clean_text_untruncated (s : str) :
  (List.length (scrubbed s) <= 80)%nat ->
  Main.clean_text s = scrubbed s /\ sanitized (Main.clean_text s).
Proof.
  intros H. rewrite clean_text_scrubbed, firstn_whole by exact H.
  split; [reflexivity | apply scrubbed_sanitized].
Qed.

(** ** The source's steps against the specification's *)

Lemma strip_leading_dropwhile (p : char -> bool) (s : str) :
  Spec.strip_leading p s = Py.dropwhile p s.
Proof.
  induction s as [|c r IH]; simpl; [reflexivity|].
  now destruct (p c).
Qed.

Lemma dropwhile_snoc (p : char -> bool) (a : str) (c : char) :
  Py.dropwhile p (a ++ [c])
  = match Py.dropwhile p a with
    | [] => if p c then [] else [c]
    | d :: r => (d :: r) ++ [c]
    end.
Proof.
  induction a as [|x a IH]; simpl.
  - reflexivity.
  - destruct (p x); [exact IH | reflexivity].
Qed.

Lemma strip_trailing_rstrip (p : char -> bool) (s : str) :
  Spec.strip_trailing p s = Py.rstrip p s.
Proof.
  unfold Py.rstrip. induction s as [|c r IH]; [reflexivity|].
  cbn [Spec.strip_trailing rev]. rewrite IH, dropwhile_snoc.
  destruct (Py.dropwhile p (rev r)) as [|d t].
  - simpl. now destruct (p c).
  - rewrite rev_app_distr. simpl.
    destruct (rev t ++ [d]) eqn:E; [|reflexivity].
    now destruct (rev t).
Qed.

Lemma strip_both_strip (p : char -> bool) (s : str) :
  Spec.strip_both p s = Py.strip p s.
Proof.
  unfold Spec.strip_both, Py.strip, Py.lstrip.
  now rewrite strip_trailing_rstrip, strip_leading_dropwhile.
Qed.

Lemma collapse_underscores_cons2 (c d : char) (r : str) :
  Spec.collapse_underscores (c :: d :: r)
  = if N.eqb c US && N.eqb d US then Spec.collapse_underscores (d :: r)
    else c :: Spec.collapse_underscores (d :: r).
Proof. reflexivity. Qed.

Lemma collapse_underscores_head (r : str) :
  exists t : str, Spec.collapse_underscores (US :: r) = US :: t.
Proof.
  induction r as [|d r IH].
  - now exists [].
  - rewrite collapse_underscores_cons2, N.eqb_refl.
    destruct (N.eqb d US) eqn:Hd.
    + apply N.eqb_eq in Hd. subst d. exact IH.
    + cbn [andb]. now eexists.
Qed.

(** Emitting the underscore at the start of a run, as the substitution
    does, or keeping the last one of the run, gives the same string. *)
Lemma re_sub_plus_from_collapse (s : str) :
  Py.re_sub_plus_from Main.is_underscore [US] false s
  = Spec.collapse_underscores s
  /\ Py.re_sub_plus_from Main.is_underscore [US] true s
     = match s with
       | c :: _ =>
           if N.eqb c US then tl (Spec.collapse_underscores s)
           else Spec.collapse_underscores s
       | [] => []
       end.
Proof.
  induction s as [|c r [IHf IHt]]; [now split|].
  cbn [Py.re_sub_plus_from].
  replace (Main.is_underscore c) with (N.eqb c US) by reflexivity.
  destruct (N.eqb c US) eqn:Hc.
  - apply N.eqb_eq in Hc. subst c.
    change ([US] ++ ?x) with (US :: x). rewrite IHt.
    destruct r as [|d r']; [now split|].
    rewrite collapse_underscores_cons2, N.eqb_refl.
    destruct (N.eqb d US) eqn:Hd.
    + apply N.eqb_eq in Hd. subst d.
      destruct (collapse_underscores_head r') as (t & Et).
      cbn [andb]. rewrite Et. now split.
    + cbn [andb tl]. now split.
  - rewrite IHf. destruct r as [|d r']; [now split|].
    rewrite collapse_underscores_cons2, Hc. now split.
Qed.

Lemma truncate_firstn (n : nat) (s : str) :
  Spec.truncate n s = firstn n s.
Proof.
  unfold Spec.truncate. destruct (Nat.leb (List.length s) n) eqn:E;
    [|reflexivity].
  apply Nat.leb_le in E. now rewrite firstn_whole.
Qed.

(** ** The sanitizer: the statements of the specification *)

(** C1, at the input of 79 letters [a] followed by [_b]: every step up to
    the stripping of underscores leaves these 81 characters as they are,
    and the slice [[:80]] then cuts the [b] off, so the result of
    [clean_text] is 79 letters [a] and an underscore; it ends with an
    underscore, which a sanitized name must not.  The input is one that
    [extract_product_name] hands over: a text made of this line alone
    gives the line back (by Strategy 4). *)
Theorem clean_text_slice_exposes_underscore :
  Main.clean_text text_long_name = repeat 97 79 ++ [US]
  /\ ~ Spec.no_trailing_underscore (Main.clean_text text_long_name)
  /\ @Main.extract_product_name ascii_db text_long_name
     = Value (Some text_long_name).
Proof.
  assert (E : Main.clean_text text_long_name = repeat 97 79 ++ [US])
    by (vm_compute; reflexivity).
  split; [exact E|]. split.
  - intros H. exact (H (repeat 97 79) E).
  - vm_compute. reflexivity.
Qed.

(** C4: for every string, [clean_text] computes what the six steps of the
    specification compute, applied in their order: strip whitespace at
    both ends, turn newlines into spaces, turn every character outside
    {a-z, A-Z, 0-9, _, &, -} into an underscore, collapse every maximal
    run of underscores into one, strip underscores at both ends, keep at
    most 80 code points. *)
Theorem clean_text_is_six_steps (s : str) :
  Main.clean_text s = Spec.clean_text_steps s.
Proof.
  unfold Main.clean_text, Spec.clean_text_steps, Py.slice_to.
  cbv zeta.
  rewrite truncate_firstn, !strip_both_strip. f_equal.
  change (fun c : char => N.eqb c US) with Main.is_underscore. f_equal.
  unfold Py.re_sub_plus.
  rewrite (proj1 (re_sub_plus_from_collapse _)). f_equal.
  rewrite re_sub_class_map, replace_char_map.
  unfold Spec.replace_unpermitted, Spec.newlines_to_spaces.
  apply map_ext. intros c.
  rewrite filename_char_permitted. now destruct (Spec.is_permitted c).
Qed.

(** C8: for every string of length at most 80, sanitizing the sanitized
    string again changes nothing:
    [clean_text (clean_text s) = clean_text s]. *)
Theorem clean_text_idempotent (s : str) :
  (List.length s <= 80)%nat ->
  Main.clean_text (Main.clean_text s) = Main.clean_text s.
Proof.
  intros H.
  assert (L : (List.length (scrubbed s) <= 80)%nat)
    by (pose proof (scrubbed_length s); lia).
  destruct (clean_text_untruncated s L) as [E S].
  rewrite E at 1 2. rewrite clean_text_scrubbed.
  rewrite sanitized_fixed by apply scrubbed_sanitized.
  now rewrite firstn_whole.
Qed.

Lemma clean_text_idempotent_witness :
  (List.length (lit "  Radiant Glow  Face__Serum!! ") <= 80)%nat
  /\ Main.clean_text (Main.clean_text (lit "  Radiant Glow  Face__Serum!! "))
     = Main.clean_text (lit "  Radiant Glow  Face__Serum!! ").
Proof.
  split.
  - vm_compute. lia.
  - apply (clean_text_idempotent (lit "  Radiant Glow  Face__Serum!! ")).
    vm_compute. lia.
Defined.

(** ** The four loops of [extract_product_name] *)

Lemma ascii_db_agrees : AsciiAgree ascii_db.
Proof.
  constructor.
  - reflexivity.
  - intros c H. simpl. now rewrite H.
Qed.

Lemma find_first_match (P : str -> bool) (lines : list str) (line : str) :
  find P lines = Some line <-> first_match P lines line.
Proof.
  unfold first_match. induction lines as [|x r IH]; simpl.
  - split; [discriminate|]. intros (pre & post & E & _).
    now destruct pre.
  - destruct (P x) eqn:Hx.
    + split.
      * intros [= ->]. exists [], r. now repeat split.
      * intros (pre & post & E & Hl & Hpre). destruct pre as [|y pre].
        -- now injection E as ->.
        -- injection E as -> _. rewrite Hpre in Hx by now left.
           discriminate.
    + rewrite IH. split.
      * intros (pre & post & -> & Hl & Hpre). exists (x :: pre), post.
        repeat split; [exact Hl|]. intros y [<-|Hy]; [exact Hx | now apply Hpre].
      * intros (pre & post & E & Hl & Hpre). destruct pre as [|y pre].
        -- injection E as -> _. congruence.
        -- injection E as -> ->. exists pre, post.
           repeat split; [exact Hl|]. intros z Hz. apply Hpre. now right.
Qed.

Lemma find_none_iff (P : str -> bool) (lines : list str) :
  find P lines = None <-> forall x, In x lines -> P x = false.
Proof.
  split.
  - intros H x Hx. now apply (find_none P lines H).
  - induction lines as [|x r IH]; simpl; [reflexivity|]. intros H.
    rewrite (H x) by now left. apply IH. intros y Hy. apply H. now right.
Qed.

Section Loops.
Context {U : UnicodeDB}.

Lemma strategy1_first_such (lines : list str) :
  Main.strategy1 lines = first_such keyword_line lines.
Proof.
  unfold first_such. induction lines as [|line rest IH]; [reflexivity|].
  cbn [Main.strategy1 find]. unfold keyword_line at 1.
  unfold has_keyword, has_exclusion. rewrite IH.
  destruct (Py.any_in Main.product_keywords (py_lower line)); [|reflexivity].
  destruct (Py.any_in Main.exclude_phrases (py_lower line)); [reflexivity|].
  cbn [negb andb]. now destruct (len_between 5 100 line).
Qed.

Lemma strategy3_first_such (lines : list str) :
  Main.strategy3 lines = first_such attribution_line lines.
Proof.
  unfold first_such. induction lines as [|line rest IH]; [reflexivity|].
  cbn [Main.strategy3 find]. unfold attribution_line at 1, len_between.
  rewrite IH.
  destruct (Py.re_search_words [lit "by"; lit "from"] line); [|reflexivity].
  cbn [andb]. now destruct ((5 <? Py.len line)%Z && (Py.len line <? 100)%Z).
Qed.

Lemma strategy4_first_such (lines : list str) :
  Main.strategy4 lines = first_such fallback_line lines.
Proof.
  unfold first_such. induction lines as [|line rest IH]; [reflexivity|].
  cbn [Main.strategy4 find]. unfold fallback_line at 1, len_between, has_header.
  rewrite IH.
  destruct ((10 <? Py.len line)%Z && (Py.len line <? 100)%Z); [|reflexivity].
  cbn [andb]. now destruct (Py.any_in Main.headers (py_lower line)).
Qed.

End Loops.

(** ** Strategy 2: the index and the line in front *)

Lemma last_or_snoc (A : Type) (before : option A) (pre : list A) (c : A) :
  last_or before (pre ++ [c]) = Some c.
Proof.
  revert before. induction pre as [|x pre IH]; intros before; simpl.
  - reflexivity.
  - apply IH.
Qed.

Lemma last_or_app (A : Type) (before : option A) (pre more : list A) :
  last_or before (pre ++ more) = last_or (last_or before pre) more.
Proof.
  revert before. induction pre as [|x pre IH]; intros before; simpl.
  - reflexivity.
  - apply IH.
Qed.

Lemma getitem_pred (A : Type) (xs : list A) (k : nat) :
  (0 < k)%nat ->
  Py.getitem xs (Z.of_nat k - 1) = nth_error xs (k - 1).
Proof.
  intros H. unfold Py.getitem.
  destruct (Z.ltb_spec (Z.of_nat k - 1) 0) as [L|L]; [lia|].
  f_equal. lia.
Qed.

Lemma nth_error_last_of_done (A : Type) (done rest : list A) (p : A) :
  nth_error ((done ++ [p]) ++ rest) (List.length (done ++ [p]) - 1) = Some p.
Proof.
  rewrite length_app. simpl.
  replace (List.length done + 1 - 1)%nat with (List.length done) by lia.
  rewrite <- app_assoc. simpl.
  rewrite nth_error_app2 by lia.
  now rewrite Nat.sub_diag.
Qed.

Lemma nth_error_first_of_rest (A : Type) (done rest : list A) (x : A) :
  nth_error (done ++ x :: rest) (List.length done) = Some x.
Proof.
  rewrite nth_error_app2 by lia. now rewrite Nat.sub_diag.
Qed.

Lemma snoc_cases (A : Type) (l : list A) :
  l = [] \/ exists (d : list A) (p : A), l = d ++ [p].
Proof. induction l using rev_ind; [now left | right; eauto]. Qed.

Section Strategy2.
Context {U : UnicodeDB}.

(** With [i] the number of lines already passed, the loop is the scan
    over adjacent lines: [lines[i-1]] is the line just passed, and the
    index is never out of range. *)
Lemma strategy2_scan (lines rest done : list str) :
  lines = done ++ rest ->
  Main.strategy2 lines (Z.of_nat (List.length done)) rest
  = trigger_scan (last_or None done) rest.
Proof.
  revert done. induction rest as [|line rest IH]; intros done E.
  - reflexivity.
  - assert (E' : lines = (done ++ [line]) ++ rest)
      by (now rewrite <- app_assoc).
    specialize (IH _ E').
    rewrite last_or_snoc in IH.
    replace (Z.of_nat (List.length (done ++ [line])))
      with (Z.of_nat (List.length done) + 1)%Z in IH
      by (rewrite length_app; simpl; lia).
    cbn [Main.strategy2 trigger_scan].
    destruct (snoc_cases done) as [-> | (d & p & ->)].
    + rewrite andb_false_r. exact IH.
    + rewrite last_or_snoc.
      replace (0 <? Z.of_nat (List.length (d ++ [p])))%Z with true
        by (symmetry; apply Z.ltb_lt; rewrite length_app; simpl; lia).
      rewrite andb_true_r. fold (has_trigger line).
      destruct (has_trigger line); [|exact IH].
      rewrite getitem_pred by (rewrite length_app; simpl; lia).
      assert (Np : nth_error lines (List.length (d ++ [p]) - 1) = Some p)
        by (rewrite E; apply nth_error_last_of_done).
      rewrite Np. cbn [andb].
      destruct (5 <? Py.len p)%Z; [reflexivity | exact IH].
Qed.

Lemma strategy2_whole (lines : list str) :
  Main.strategy2 lines 0 lines = trigger_scan None lines.
Proof. exact (@strategy2_scan lines lines [] eq_refl). Qed.

Lemma trigger_scan_no_raise (prev : option str) (rest : list str) :
  trigger_scan prev rest <> RaiseIndexError.
Proof.
  revert prev. induction rest as [|line rest IH]; intros prev; simpl.
  - discriminate.
  - destruct prev as [p|]; [|apply IH].
    destruct (has_trigger line && (5 <? Py.len p)%Z); [discriminate|apply IH].
Qed.

Lemma trigger_scan_member (prev : option str) (rest : list str) (l : str) :
  trigger_scan prev rest = Return l -> prev = Some l \/ In l rest.
Proof.
  revert prev. induction rest as [|line rest IH]; intros prev; simpl.
  - discriminate.
  - destruct prev as [p|].
    + destruct (has_trigger line && (5 <? Py.len p)%Z).
      * intros [= ->]. now left.
      * intros H. apply IH in H as [[= ->]|H]; right; auto.
    + intros H. apply IH in H as [[= ->]|H]; right; auto.
Qed.

(** The first index [i > 0] whose line has a trigger phrase and whose
    line in front is longer than 5 makes the scan return that line. *)
Lemma trigger_scan_at (lines : list str) (i : nat) (prev line : str) :
  (0 < i)%nat ->
  nth_error lines i = Some line ->
  nth_error lines (i - 1) = Some prev ->
  has_trigger line = true ->
  (5 < Py.len prev)%Z ->
  (forall (j : nat) (lj pj : str),
      (0 < j < i)%nat ->
      nth_error lines j = Some lj -> nth_error lines (j - 1) = Some pj ->
      has_trigger lj = true -> (Py.len pj <= 5)%Z) ->
  forall rest done : list str,
    lines = done ++ rest -> (List.length done <= i)%nat ->
    trigger_scan (last_or None done) rest = Return prev.
Proof.
  intros Hi Hl Hp Ht Hlen Hfirst.
  induction rest as [|l0 rest IH]; intros done E Hk.
  - rewrite app_nil_r in E. subst done.
    assert (i < List.length lines)%nat
      by (apply nth_error_Some; congruence).
    lia.
  - assert (E' : lines = (done ++ [l0]) ++ rest)
      by (now rewrite <- app_assoc).
    assert (N0 : nth_error lines (List.length done) = Some l0)
      by (rewrite E; apply nth_error_first_of_rest).
    destruct (Nat.eq_dec (List.length done) i) as [Eq|Ne].
    + rewrite Eq, Hl in N0. injection N0 as <-.
      destruct (snoc_cases done) as [-> | (d & p & ->)];
        [simpl in Eq; lia|].
      rewrite last_or_snoc. cbn [trigger_scan].
      assert (p = prev) as ->.
      { rewrite <- Eq, E, nth_error_last_of_done in Hp. congruence. }
      rewrite Ht. apply Z.ltb_lt in Hlen. now rewrite Hlen.
    + specialize (IH _ E').
      rewrite last_or_snoc in IH.
      assert (IH' : trigger_scan (Some l0) rest = Return prev)
        by (apply IH; rewrite length_app; simpl; lia).
      destruct (snoc_cases done) as [-> | (d & p & ->)]; [exact IH'|].
      rewrite last_or_snoc. cbn [trigger_scan].
      destruct (has_trigger l0) eqn:T0; [|exact IH'].
      assert (Hp0 : (Py.len p <= 5)%Z).
      { apply (Hfirst (List.length (d ++ [p])) l0 p).
        - rewrite length_app in *. simpl in *. lia.
        - exact N0.
        - rewrite E. apply nth_error_last_of_done.
        - exact T0. }
      replace (5 <? Py.len p)%Z with false
        by (symmetry; apply Z.ltb_ge; exact Hp0).
      exact IH'.
Qed.

End Strategy2.

(** ** Strategy 3: the regular expression and whole words *)

Lemma ieq_letter (a c : char) :
  97 <= a <= 122 -> (Py.ieq a c = true <-> c = a \/ c + 32 = a).
Proof.
  intros Ha. unfold Py.ieq, ascii_lower_char, in_range.
  destruct (N.leb_spec 65 c), (N.leb_spec c 90); cbn [andb];
    rewrite N.eqb_eq; lia.
Qed.

Lemma match_literal_spec (w : str) :
  forall (last : option char) (s : str) (last' : option char) (r : str),
    Py.match_literal w last s = Some (last', r)
    <-> exists occ : str,
        s = occ ++ r
        /\ Forall2 (fun a c => Py.ieq a c = true) w occ
        /\ last' = last_or last occ.
Proof.
  induction w as [|a w IH]; intros last s last' r; cbn [Py.match_literal].
  - split.
    + intros [= <- <-]. exists []. repeat split. constructor.
    + intros (occ & -> & F & ->). inversion F. reflexivity.
  - destruct s as [|c s].
    + split; [discriminate|]. intros (occ & E & F & _).
      inversion F; subst. discriminate.
    + destruct (Py.ieq a c) eqn:Hc.
      * rewrite IH. split.
        -- intros (occ & -> & F & ->). exists (c :: occ).
           repeat split. now constructor.
        -- intros (occ & E & F & ->). inversion F; subst.
           injection E as <- ->. now eexists.
      * split; [discriminate|]. intros (occ & E & F & _).
        inversion F; subst. injection E as <- _. congruence.
Qed.

Lemma same_word_ieq (w occ : str) :
  Forall (fun a => 97 <= a <= 122) w ->
  (Forall2 (fun a c => Py.ieq a c = true) w occ <-> Spec.same_word w occ).
Proof.
  unfold Spec.same_word. intros Hw. split; intros F.
  - induction F; constructor.
    + apply ieq_letter; [now apply Forall_inv in Hw | assumption].
    + apply IHF. now apply Forall_inv_tail in Hw.
  - induction F; constructor.
    + apply ieq_letter; [now apply Forall_inv in Hw | assumption].
    + apply IHF. now apply Forall_inv_tail in Hw.
Qed.

Lemma last_or_member (A : Type) (before : option A) (occ : list A) :
  occ <> [] -> exists c : A, last_or before occ = Some c /\ In c occ.
Proof.
  intros H. destruct (snoc_cases occ) as [->|(d & c & ->)]; [congruence|].
  exists c. rewrite last_or_snoc. split; [reflexivity|].
  apply in_or_app. right. now left.
Qed.

Section WordSearch.
Context {U : UnicodeDB}.
Hypothesis agree : AsciiAgree U.

Lemma letter_is_word (a c : char) :
  97 <= a <= 122 -> c = a \/ c + 32 = a -> Py.is_word c = true.
Proof.
  intros Ha Hc. unfold Py.is_word.
  rewrite (isalnum_ascii agree) by (unfold is_ascii; apply N.ltb_lt; lia).
  unfold ascii_isalnum, in_range.
  destruct Hc as [-> | <-].
  - replace (97 <=? a) with true by (symmetry; apply N.leb_le; lia).
    replace (a <=? 122) with true by (symmetry; apply N.leb_le; lia).
    cbn [andb]. now rewrite !orb_true_r.
  - replace (65 <=? c) with true by (symmetry; apply N.leb_le; lia).
    replace (c <=? 90) with true by (symmetry; apply N.leb_le; lia).
    cbn [andb]. now rewrite !orb_true_r.
Qed.

Lemma same_word_letters (w occ : str) :
  Forall (fun a => 97 <= a <= 122) w ->
  Spec.same_word w occ -> Forall (fun c => Py.is_word c = true) occ.
Proof.
  intros Hw F. induction F; constructor.
  - eapply letter_is_word; [|eassumption]. now apply Forall_inv in Hw.
  - apply IHF. now apply Forall_inv_tail in Hw.
Qed.

(** [\bw\b] at a position: the word is there up to case, and neither
    the character in front nor the one behind is a word character. *)
Lemma match_word_spec (w : str) (before : option char) (s : str) :
  lowercase_word w ->
  (Py.match_word w before s = true
   <-> exists occ post : str,
       s = occ ++ post /\ Spec.same_word w occ
       /\ Py.is_word_opt before = false
       /\ Py.is_word_opt (hd_error post) = false).
Proof.
  intros [Hne Hw]. unfold Py.match_word, Py.word_boundary. split.
  - intros H. apply andb_true_iff in H as [B1 B2].
    destruct (Py.match_literal w before s) as [[last r]|] eqn:M;
      [|discriminate].
    apply match_literal_spec in M as (occ & -> & F & ->).
    apply same_word_ieq in F; [|exact Hw].
    pose proof (same_word_letters Hw F) as L.
    assert (Ho : occ <> [])
      by (intros ->; unfold Spec.same_word in F; inversion F; subst;
          now apply Hne).
    exists occ, r. repeat split; [exact F| |].
    + destruct occ as [|c occ]; [congruence|]. simpl in B1.
      apply Forall_inv in L. rewrite L in B1.
      now destruct (Py.is_word_opt before).
    + destruct (last_or_member before Ho) as (c & Ec & Hin).
      rewrite Ec in B2. simpl in B2.
      rewrite Forall_forall in L. rewrite (L c Hin) in B2.
      now destruct (Py.is_word_opt (hd_error r)).
  - intros (occ & post & -> & F & Hb & Ha).
    pose proof (same_word_letters Hw F) as L.
    assert (Ho : occ <> [])
      by (intros ->; unfold Spec.same_word in F; inversion F; subst;
          now apply Hne).
    assert (M : Py.match_literal w before (occ ++ post)
                = Some (last_or before occ, post)).
    { apply match_literal_spec. exists occ. repeat split.
      now apply same_word_ieq. }
    rewrite M. destruct (last_or_member before Ho) as (c & Ec & Hin).
    rewrite Ec, Hb, Ha. simpl.
    rewrite Forall_forall in L. rewrite (L c Hin).
    destruct occ as [|c0 occ]; [congruence|]. simpl.
    now rewrite (L c0) by now left.
Qed.

End WordSearch.

Section WholeWords.
Context {U : UnicodeDB}.

(** The search succeeds exactly when one alternative matches at some
    position of the string. *)
Lemma re_search_words_from_spec (ws : list str) (before : option char) (s : str) :
  Py.re_search_words_from ws before s = true
  <-> exists pre suffix : str,
      s = pre ++ suffix
      /\ existsb (fun w => Py.match_word w (last_or before pre) suffix) ws
         = true.
Proof.
  revert before. induction s as [|c r IH]; intros before;
    cbn [Py.re_search_words_from]; rewrite orb_true_iff.
  - split.
    + intros [H|H]; [|discriminate]. now exists [], [].
    + intros (pre & suffix & E & H). left.
      symmetry in E. apply app_eq_nil in E as [-> ->]. exact H.
  - rewrite IH. split.
    + intros [H | (pre & suffix & -> & H)].
      * now exists [], (c :: r).
      * now exists (c :: pre), suffix.
    + intros (pre & suffix & E & H). destruct pre as [|c' pre].
      * left. simpl in E. subst suffix. exact H.
      * right. injection E as <- ->. now exists pre, suffix.
Qed.

Lemma is_word_last_or_none (pre : str) :
  Py.is_word_opt (last_or None pre) = false
  <-> forall (p : str) (c : char), pre = p ++ [c] -> Py.is_word c = false.
Proof.
  destruct (snoc_cases pre) as [-> | (d & x & ->)].
  - split; [|reflexivity]. intros _ p c E. now destruct p.
  - rewrite last_or_snoc. simpl. split.
    + intros H p c E. apply app_inj_tail in E as [_ <-]. exact H.
    + intros H. now apply (H d x).
Qed.

Lemma is_word_hd_error (post : str) :
  Py.is_word_opt (hd_error post) = false
  <-> forall (c : char) (r : str), post = c :: r -> Py.is_word c = false.
Proof.
  destruct post as [|x post]; simpl.
  - split; [discriminate | reflexivity].
  - split.
    + intros H c r [= <- _]. exact H.
    + intros H. now apply (H x post).
Qed.

Hypothesis agree : AsciiAgree U.

(** The search for [\bw1\b|\bw2\b|...] under [re.IGNORECASE] succeeds
    exactly on the strings that contain one of the words as a whole
    word. *)
Lemma re_search_words_whole (ws : list str) (line : str) :
  Forall lowercase_word ws ->
  (Py.re_search_words ws line = true
   <-> exists w : str, In w ws /\ Spec.whole_word w line).
Proof.
  intros Hws. unfold Py.re_search_words, Spec.whole_word.
  rewrite re_search_words_from_spec. rewrite Forall_forall in Hws. split.
  - intros (pre & suffix & -> & H).
    apply existsb_exists in H as (w & Hin & M).
    apply (match_word_spec agree) in M as (occ & post & -> & F & Hb & Ha);
      [|now apply Hws].
    exists w. split; [exact Hin|]. exists pre, occ, post.
    repeat split; [exact F| |].
    + now apply is_word_last_or_none.
    + now apply is_word_hd_error.
  - intros (w & Hin & pre & occ & post & -> & F & Hb & Ha).
    exists pre, (occ ++ post). split; [reflexivity|].
    apply existsb_exists. exists w. split; [exact Hin|].
    apply (match_word_spec agree); [now apply Hws|].
    exists occ, post. repeat split; [exact F| |].
    + now apply is_word_last_or_none.
    + now apply is_word_hd_error.
Qed.

End WholeWords.

Lemma by_from_lowercase : Forall lowercase_word [lit "by"; lit "from"].
Proof.
  repeat constructor; try discriminate; simpl; lia.
Qed.

(** ** On ASCII text the Unicode tables do not matter *)

Lemma split_chars (sep : char) (s : str) (w : str) (c : char) :
  In w (Py.split sep s) -> In c w -> In c s.
Proof.
  revert w. induction s as [|x r IH]; intros w; simpl.
  - intros [<-|[]] [].
  - destruct (N.eqb x sep).
    + intros [<-|H] Hc; [destruct Hc|]. right. eapply IH; eassumption.
    + destruct (Py.split sep r) as [|w0 ws] eqn:E.
      * intros [<-|[]] [<-|[]]. now left.
      * intros [<-|H] Hc.
        -- destruct Hc as [<-|Hc]; [now left|]. right.
           apply (IH w0); [now left | exact Hc].
        -- right. apply (IH w); [now right | exact Hc].
Qed.

Lemma infix_In (t s : str) (c : char) : infix t s -> In c t -> In c s.
Proof.
  intros (a & b & ->) H. apply in_or_app. right. apply in_or_app. now left.
Qed.

Lemma lines_of_chars (text line : str) (c : char) :
  In line (Main.lines_of text) -> In c line -> In c text.
Proof.
  unfold Main.lines_of. intros H Hc.
  apply in_map_iff in H as (raw & <- & Hraw).
  apply filter_In in Hraw as [Hraw _].
  eapply split_chars; [exact Hraw|].
  eapply infix_In; [apply strip_infix | exact Hc].
Qed.

Lemma lines_of_ascii (text line : str) :
  forallb is_ascii text = true ->
  In line (Main.lines_of text) -> forallb is_ascii line = true.
Proof.
  intros H Hl. rewrite forallb_forall in *. intros c Hc.
  apply H. eapply lines_of_chars; eassumption.
Qed.

Lemma find_ext_in (P Q : str -> bool) (l : list str) :
  (forall x, In x l -> P x = Q x) -> find P l = find Q l.
Proof.
  induction l as [|x r IH]; intros H; simpl; [reflexivity|].
  rewrite <- (H x) by now left.
  destruct (P x); [reflexivity|]. apply IH. intros y Hy. apply H. now right.
Qed.

Lemma existsb_pointwise (A : Type) (f g : A -> bool) (l : list A) :
  (forall x, f x = g x) -> existsb f l = existsb g l.
Proof.
  intros H. induction l as [|x l IH]; simpl; [reflexivity|].
  now rewrite H, IH.
Qed.

Section AsciiText.
Context {U : UnicodeDB}.
Hypothesis agree : AsciiAgree U.

Lemma lower_agrees (line : str) :
  forallb is_ascii line = true ->
  @py_lower U line = @py_lower ascii_db line.
Proof. intros H. now rewrite (lower_ascii agree). Qed.

Lemma is_word_agrees (c : char) :
  is_ascii c = true -> @Py.is_word U c = @Py.is_word ascii_db c.
Proof.
  intros H. unfold Py.is_word.
  now rewrite (isalnum_ascii agree), (isalnum_ascii ascii_db_agrees).
Qed.

Lemma is_word_opt_agrees (o : option char) :
  ascii_opt o -> @Py.is_word_opt U o = @Py.is_word_opt ascii_db o.
Proof.
  destruct o as [c|]; [|reflexivity]. intros H. simpl.
  now apply is_word_agrees, H.
Qed.

Lemma ascii_opt_hd (s : str) :
  forallb is_ascii s = true -> ascii_opt (hd_error s).
Proof.
  destruct s as [|x s]; simpl; intros H c; [discriminate|].
  intros [= <-]. now apply andb_true_iff in H.
Qed.

Lemma ascii_opt_last_or (before : option char) (s : str) :
  ascii_opt before -> forallb is_ascii s = true ->
  ascii_opt (last_or before s).
Proof.
  revert before. induction s as [|x s IH]; intros before Hb H; simpl.
  - exact Hb.
  - apply andb_true_iff in H as [Hx Hs]. apply IH; [|exact Hs].
    intros c [= <-]. exact Hx.
Qed.

Lemma match_word_agrees (w : str) (before : option char) (s : str) :
  ascii_opt before -> forallb is_ascii s = true ->
  @Py.match_word U w before s = @Py.match_word ascii_db w before s.
Proof.
  intros Hb Hs. unfold Py.match_word, Py.word_boundary.
  assert (Hh : ascii_opt (hd_error s)) by now apply ascii_opt_hd.
  rewrite !(is_word_opt_agrees Hb), !(is_word_opt_agrees Hh).
  destruct (Py.match_literal w before s) as [[last r]|] eqn:M;
    [|reflexivity].
  apply match_literal_spec in M as (occ & -> & _ & ->).
  rewrite forallb_app in Hs. apply andb_true_iff in Hs as [Ho Hr].
  assert (Hl : ascii_opt (last_or before occ))
    by now apply ascii_opt_last_or.
  assert (Hr' : ascii_opt (hd_error r)) by now apply ascii_opt_hd.
  now rewrite !(is_word_opt_agrees Hl), !(is_word_opt_agrees Hr').
Qed.

Lemma re_search_words_from_agrees (ws : list str) (before : option char) (s : str) :
  ascii_opt before -> forallb is_ascii s = true ->
  @Py.re_search_words_from U ws before s
  = @Py.re_search_words_from ascii_db ws before s.
Proof.
  revert before. induction s as [|c r IH]; intros before Hb Hs;
    cbn [Py.re_search_words_from].
  - f_equal. apply existsb_pointwise. intros w. now apply match_word_agrees.
  - f_equal.
    + apply existsb_pointwise. intros w. now apply match_word_agrees.
    + simpl in Hs. apply andb_true_iff in Hs as [Hc Hr].
      apply IH; [|exact Hr]. intros x [= <-]. exact Hc.
Qed.

Lemma keyword_line_agrees (line : str) :
  forallb is_ascii line = true ->
  @keyword_line U line = @keyword_line ascii_db line.
Proof.
  intros H. unfold keyword_line, has_keyword, has_exclusion.
  now rewrite (lower_agrees _ H).
Qed.

Lemma has_trigger_agrees (line : str) :
  forallb is_ascii line = true ->
  @has_trigger U line = @has_trigger ascii_db line.
Proof. intros H. unfold has_trigger. now rewrite (lower_agrees _ H). Qed.

Lemma attribution_line_agrees (line : str) :
  forallb is_ascii line = true ->
  @attribution_line U line = @attribution_line ascii_db line.
Proof.
  intros H. unfold attribution_line, Py.re_search_words.
  rewrite re_search_words_from_agrees; [reflexivity| |exact H].
  intros c. discriminate.
Qed.

Lemma fallback_line_agrees (line : str) :
  forallb is_ascii line = true ->
  @fallback_line U line = @fallback_line ascii_db line.
Proof.
  intros H. unfold fallback_line, has_header. now rewrite (lower_agrees _ H).
Qed.

Lemma trigger_scan_agrees (prev : option str) (rest : list str) :
  (forall l, In l rest -> forallb is_ascii l = true) ->
  @trigger_scan U prev rest = @trigger_scan ascii_db prev rest.
Proof.
  revert prev. induction rest as [|line rest IH]; intros prev H;
    [reflexivity|].
  cbn [trigger_scan]. rewrite (has_trigger_agrees _ (H line (or_introl eq_refl))).
  rewrite !IH by (intros l Hl; apply H; now right). reflexivity.
Qed.

End AsciiText.

(** ** [extract_product_name] as four searches in a row *)

Section Extractor.
Context {U : UnicodeDB}.

Lemma extract_product_name_shape (text : str) :
  Main.extract_product_name text
  = finish (first_such keyword_line (Main.lines_of text) ;;
            trigger_scan None (Main.lines_of text) ;;
            first_such attribution_line (Main.lines_of text) ;;
            first_such fallback_line (Main.lines_of text)).
Proof.
  unfold Main.extract_product_name. cbv zeta.
  now rewrite strategy1_first_such, strategy2_whole,
    strategy3_first_such, strategy4_first_such.
Qed.

Lemma first_such_member (P : str -> bool) (lines : list str) (l : str) :
  first_such P lines = Return l -> In l lines.
Proof.
  unfold first_such. destruct (find P lines) as [x|] eqn:E; [|discriminate].
  intros [= <-]. now apply find_some in E.
Qed.

Lemma first_such_no_raise (P : str -> bool) (lines : list str) :
  first_such P lines <> RaiseIndexError.
Proof. unfold first_such. now destruct (find P lines). Qed.

End Extractor.

Section ExtractorAscii.
Context {U : UnicodeDB}.
Hypothesis agree : AsciiAgree U.

Lemma first_such_agrees (P Q : str -> bool) (lines : list str) :
  (forall l, In l lines -> P l = Q l) ->
  first_such P lines = first_such Q lines.
Proof. intros H. unfold first_such. now rewrite (find_ext_in P Q lines H). Qed.

(** On ASCII text the result is the one computed with the ASCII cut of
    the tables. *)
Lemma extract_product_name_ascii (text : str) :
  forallb is_ascii text = true ->
  @Main.extract_product_name U text
  = @Main.extract_product_name ascii_db text.
Proof.
  intros H. rewrite !extract_product_name_shape.
  assert (A : forall l, In l (Main.lines_of text) ->
                        forallb is_ascii l = true)
    by (intros l; now apply lines_of_ascii).
  rewrite (first_such_agrees (@keyword_line U) (@keyword_line ascii_db))
    by (intros l Hl; now apply keyword_line_agrees, A).
  rewrite (first_such_agrees (@attribution_line U) (@attribution_line ascii_db))
    by (intros l Hl; now apply attribution_line_agrees, A).
  rewrite (first_such_agrees (@fallback_line U) (@fallback_line ascii_db))
    by (intros l Hl; now apply fallback_line_agrees, A).
  now rewrite (trigger_scan_agrees agree None _ A).
Qed.

Lemma strategy1_ascii (lines : list str) :
  (forall l, In l lines -> forallb is_ascii l = true) ->
  @Main.strategy1 U lines = @Main.strategy1 ascii_db lines.
Proof.
  intros A. rewrite !strategy1_first_such.
  apply first_such_agrees. intros l Hl. now apply keyword_line_agrees, A.
Qed.

Lemma strategy2_ascii (lines : list str) :
  (forall l, In l lines -> forallb is_ascii l = true) ->
  @Main.strategy2 U lines 0 lines = @Main.strategy2 ascii_db lines 0 lines.
Proof.
  intros A. rewrite !strategy2_whole. now apply trigger_scan_agrees.
Qed.

Lemma strategy3_ascii (lines : list str) :
  (forall l, In l lines -> forallb is_ascii l = true) ->
  @Main.strategy3 U lines = @Main.strategy3 ascii_db lines.
Proof.
  intros A. rewrite !strategy3_first_such.
  apply first_such_agrees. intros l Hl. now apply attribution_line_agrees, A.
Qed.

End ExtractorAscii.

(** ** The extractor: the statements of the specification *)

(** C2: the four strategies are tried in strict order and the first one
    that returns decides the result, whatever the later ones would do: a
    line returned by Strategy 1 is the result; one returned by Strategy 2
    is the result when Strategy 1 fell through; and so on for Strategies 3
    and 4.  In particular, when both Strategy 1 and Strategy 2 would
    return a line, the result is the line of Strategy 1; and the text
    [Vitamin C Serum\nBrand X Serum was evaluated], on which both
    return, gives [Vitamin C Serum]. *)
Theorem strategies_in_strict_order {U : UnicodeDB} (agree : AsciiAgree U) :
  (forall (text l : str) (later : flow),
      Main.strategy1 (Main.lines_of text) = Return l ->
      Main.extract_product_name text = Value (Some l)
      /\ finish (Main.strategy1 (Main.lines_of text) ;; later) = Value (Some l))
  /\ (forall (text l : str) (later : flow),
      Main.strategy1 (Main.lines_of text) = Fallthrough ->
      Main.strategy2 (Main.lines_of text) 0 (Main.lines_of text) = Return l ->
      Main.extract_product_name text = Value (Some l)
      /\ finish (Main.strategy1 (Main.lines_of text) ;;
                 Main.strategy2 (Main.lines_of text) 0 (Main.lines_of text) ;;
                 later) = Value (Some l))
  /\ (forall (text l : str) (later : flow),
      Main.strategy1 (Main.lines_of text) = Fallthrough ->
      Main.strategy2 (Main.lines_of text) 0 (Main.lines_of text) = Fallthrough ->
      Main.strategy3 (Main.lines_of text) = Return l ->
      Main.extract_product_name text = Value (Some l)
      /\ finish (Main.strategy1 (Main.lines_of text) ;;
                 Main.strategy2 (Main.lines_of text) 0 (Main.lines_of text) ;;
                 Main.strategy3 (Main.lines_of text) ;;
                 later) = Value (Some l))
  /\ (forall (text l : str),
      Main.strategy1 (Main.lines_of text) = Fallthrough ->
      Main.strategy2 (Main.lines_of text) 0 (Main.lines_of text) = Fallthrough ->
      Main.strategy3 (Main.lines_of text) = Fallthrough ->
      Main.strategy4 (Main.lines_of text) = Return l ->
      Main.extract_product_name text = Value (Some l))
  /\ (forall (text l1 l2 : str),
      Main.strategy1 (Main.lines_of text) = Return l1 ->
      Main.strategy2 (Main.lines_of text) 0 (Main.lines_of text) = Return l2 ->
      Main.extract_product_name text = Value (Some l1))
  /\ (Main.strategy1 (Main.lines_of text_vitamin) = Return (lit "Vitamin C Serum")
      /\ (exists l2 : str,
             Main.strategy2 (Main.lines_of text_vitamin) 0
               (Main.lines_of text_vitamin) = Return l2)
      /\ Main.extract_product_name text_vitamin
         = Value (Some (lit "Vitamin C Serum"))).
Proof.
  unfold Main.extract_product_name. cbv zeta.
  repeat match goal with |- _ /\ _ => split end.
  - intros text l later ->. now split.
  - intros text l later -> ->. now split.
  - intros text l later -> -> ->. now split.
  - now intros text l -> -> -> ->.
  - now intros text l1 l2 -> _.
  - rewrite strategy1_ascii; [reflexivity | exact agree |].
    intros l. now apply lines_of_ascii.
  - exists (lit "Vitamin C Serum").
    rewrite strategy2_ascii; [reflexivity | exact agree |].
    intros l. now apply lines_of_ascii.
  - change (Main.extract_product_name text_vitamin
            = Value (Some (lit "Vitamin C Serum"))).
    rewrite extract_product_name_ascii; [reflexivity | exact agree |].
    reflexivity.
Qed.

Lemma strategies_in_strict_order_witness :
  @Main.strategy1 ascii_db (Main.lines_of text_vitamin)
  = Return (lit "Vitamin C Serum")
  /\ @Main.strategy2 ascii_db (Main.lines_of text_vitamin) 0
       (Main.lines_of text_vitamin) = Return (lit "Vitamin C Serum")
  /\ @Main.extract_product_name ascii_db text_vitamin
     = Value (Some (lit "Vitamin C Serum")).
Proof.
  assert (H1 : @Main.strategy1 ascii_db (Main.lines_of text_vitamin)
               = Return (lit "Vitamin C Serum")) by (vm_compute; reflexivity).
  assert (H2 : @Main.strategy2 ascii_db (Main.lines_of text_vitamin) 0
                 (Main.lines_of text_vitamin) = Return (lit "Vitamin C Serum"))
    by (vm_compute; reflexivity).
  split; [exact H1 | split; [exact H2|]].
  exact (proj1 (proj2 (proj2 (proj2 (proj2
           (strategies_in_strict_order ascii_db_agrees)))))
           text_vitamin _ _ H1 H2).
Defined.

(** C3: Strategy 1 returns the first line, in the order of the text, whose
    lowercase form contains a product keyword and no exclusion phrase and
    whose length is strictly between 5 and 100, and falls through when
    there is none; a line with a keyword and an exclusion phrase is
    skipped, the loop going on with the next line (with no line left,
    Strategy 1 falls through); what Strategy 1 returns is the result of
    [extract_product_name]. *)
Theorem strategy1_first_keyword_line {U : UnicodeDB} (lines : list str) :
  Main.strategy1 lines = first_such keyword_line lines
  /\ (forall line : str,
         Main.strategy1 lines = Return line
         <-> first_match keyword_line lines line)
  /\ (Main.strategy1 lines = Fallthrough
      <-> forall x : str, In x lines -> keyword_line x = false)
  /\ (forall line : str,
         keyword_line line = true
         <-> Py.any_in Main.product_keywords (py_lower line) = true
             /\ Py.any_in Main.exclude_phrases (py_lower line) = false
             /\ (5 < Py.len line < 100)%Z)
  /\ (forall (line : str) (rest : list str),
         Py.any_in Main.product_keywords (py_lower line) = true ->
         Py.any_in Main.exclude_phrases (py_lower line) = true ->
         Main.strategy1 (line :: rest) = Main.strategy1 rest
         /\ Main.strategy1 [line] = Fallthrough)
  /\ (forall text line : str,
         lines = Main.lines_of text ->
         Main.strategy1 lines = Return line ->
         Main.extract_product_name text = Value (Some line)).
Proof.
  split; [|split; [|split; [|split; [|split]]]].
  - apply strategy1_first_such.
  - intros line. rewrite strategy1_first_such, <- find_first_match.
    unfold first_such. destruct (find keyword_line lines); split;
      congruence.
  - rewrite strategy1_first_such, <- find_none_iff.
    unfold first_such. destruct (find keyword_line lines); split;
      congruence.
  - intros line. unfold keyword_line, has_keyword, has_exclusion, len_between.
    rewrite !andb_true_iff, negb_true_iff, !Z.ltb_lt. tauto.
  - intros line rest Hk He. cbn [Main.strategy1]. now rewrite Hk, He.
  - intros text line -> H. unfold Main.extract_product_name. cbv zeta.
    now rewrite H.
Qed.

(** C5: when Strategy 1 returns nothing, and [i > 0] is the first index
    such that line [i] contains a trigger phrase in its lowercase form
    and line [i-1] is longer than 5 characters, [extract_product_name]
    returns line [i-1]. *)
Theorem strategy2_returns_preceding_line {U : UnicodeDB}
        (text : str) (i : nat) (prev line : str) :
  Main.strategy1 (Main.lines_of text) = Fallthrough ->
  (0 < i)%nat ->
  nth_error (Main.lines_of text) i = Some line ->
  nth_error (Main.lines_of text) (i - 1) = Some prev ->
  Py.any_in Main.trigger_phrases (py_lower line) = true ->
  (5 < Py.len prev)%Z ->
  (forall (j : nat) (lj pj : str),
      (0 < j < i)%nat ->
      nth_error (Main.lines_of text) j = Some lj ->
      nth_error (Main.lines_of text) (j - 1) = Some pj ->
      Py.any_in Main.trigger_phrases (py_lower lj) = true ->
      (Py.len pj <= 5)%Z) ->
  Main.strategy2 (Main.lines_of text) 0 (Main.lines_of text) = Return prev
  /\ Main.extract_product_name text = Value (Some prev).
Proof.
  intros H1 Hi Hl Hp Ht Hlen Hfirst.
  assert (H2 : Main.strategy2 (Main.lines_of text) 0 (Main.lines_of text)
               = Return prev).
  { rewrite strategy2_whole.
    apply (@trigger_scan_at U (Main.lines_of text) i prev line Hi Hl Hp Ht
             Hlen Hfirst (Main.lines_of text) [] eq_refl).
    simpl. lia. }
  split; [exact H2|].
  unfold Main.extract_product_name. cbv zeta. now rewrite H1, H2.
Qed.

Lemma strategy2_returns_preceding_line_witness :
  @Main.strategy1 ascii_db (Main.lines_of text_acme) = Fallthrough
  /\ nth_error (Main.lines_of text_acme) 1
     = Some (lit "It was evaluated in March")
  /\ nth_error (Main.lines_of text_acme) 0 = Some (lit "Acme Widget 3000")
  /\ @Main.extract_product_name ascii_db text_acme
     = Value (Some (lit "Acme Widget 3000")).
Proof.
  split; [vm_compute; reflexivity|].
  split; [vm_compute; reflexivity|].
  split; [vm_compute; reflexivity|].
  apply (@strategy2_returns_preceding_line ascii_db text_acme 1
           (lit "Acme Widget 3000") (lit "It was evaluated in March")).
  - vm_compute. reflexivity.
  - lia.
  - vm_compute. reflexivity.
  - vm_compute. reflexivity.
  - vm_compute. reflexivity.
  - vm_compute. reflexivity.
  - intros j lj pj Hj. lia.
Defined.

(** C6: when Strategies 1 and 2 return nothing, the next candidate is the
    first line that contains [by] or [from] as a whole word (ignoring
    case, with no word character on either side) and whose length is
    strictly between 5 and 100.  The single line
    [Bystander Corp Products] does not match Strategy 3; the single line
    [Night Repair by Luna] is returned in full. *)
Theorem strategy3_whole_word_by_from {U : UnicodeDB} (agree : AsciiAgree U) :
  (forall text : str,
      Main.strategy1 (Main.lines_of text) = Fallthrough ->
      Main.strategy2 (Main.lines_of text) 0 (Main.lines_of text) = Fallthrough ->
      Main.extract_product_name text
      = finish (first_such attribution_line (Main.lines_of text) ;;
                Main.strategy4 (Main.lines_of text)))
  /\ (forall (lines : list str) (line : str),
         Main.strategy3 lines = Return line
         <-> first_match attribution_line lines line)
  /\ (forall lines : list str,
         Main.strategy3 lines = Fallthrough
         <-> forall x : str, In x lines -> attribution_line x = false)
  /\ (forall line : str,
         attribution_line line = true
         <-> (Spec.whole_word (lit "by") line
              \/ Spec.whole_word (lit "from") line)
             /\ (5 < Py.len line < 100)%Z)
  /\ (Main.lines_of text_bystander = [text_bystander]
      /\ Main.strategy3 (Main.lines_of text_bystander) = Fallthrough
      /\ ~ (Spec.whole_word (lit "by") text_bystander
            \/ Spec.whole_word (lit "from") text_bystander))
  /\ (Main.lines_of text_night_repair = [text_night_repair]
      /\ Main.strategy3 (Main.lines_of text_night_repair)
         = Return text_night_repair
      /\ Main.extract_product_name text_night_repair
         = Value (Some text_night_repair)).
Proof.
  assert (W : forall line : str,
             attribution_line line = true
             <-> (Spec.whole_word (lit "by") line
                  \/ Spec.whole_word (lit "from") line)
                 /\ (5 < Py.len line < 100)%Z).
  { intros line. unfold attribution_line, len_between.
    rewrite !andb_true_iff, !Z.ltb_lt.
    rewrite (re_search_words_whole agree _ by_from_lowercase).
    split.
    - intros [(w & [<-|[<-|[]]] & H) L]; tauto.
    - intros [[H|H] L]; (split; [|exact L]).
      + exists (lit "by"). split; [now left | exact H].
      + exists (lit "from"). split; [right; now left | exact H]. }
  split; [|split; [|split; [|split; [|split]]]].
  - intros text H1 H2. unfold Main.extract_product_name. cbv zeta.
    now rewrite H1, H2, strategy3_first_such.
  - intros lines line. rewrite strategy3_first_such, <- find_first_match.
    unfold first_such. destruct (find attribution_line lines); split;
      congruence.
  - intros lines. rewrite strategy3_first_such, <- find_none_iff.
    unfold first_such. destruct (find attribution_line lines); split;
      congruence.
  - exact W.
  - assert (A : attribution_line text_bystander = false)
      by (rewrite (attribution_line_agrees agree); reflexivity).
    split; [reflexivity|]. split.
    + change (Main.strategy3 [text_bystander] = Fallthrough).
      rewrite strategy3_first_such. unfold first_such. simpl. now rewrite A.
    + intros H.
      assert (T : attribution_line text_bystander = true).
      { apply W. split; [exact H|]. vm_compute. now split. }
      congruence.
  - split; [reflexivity|]. split.
    + rewrite (strategy3_ascii agree); [reflexivity|].
      intros l. now apply lines_of_ascii.
    + rewrite (extract_product_name_ascii agree); reflexivity.
Qed.

Lemma strategy3_whole_word_by_from_witness :
  @Main.extract_product_name ascii_db text_night_repair
  = Value (Some text_night_repair).
Proof.
  exact (proj2 (proj2 (proj2 (proj2 (proj2 (proj2 (proj2
           (strategy3_whole_word_by_from ascii_db_agrees)))))))).
Defined.

(** C7: for every text [extract_product_name] returns a value, a line of
    the text or [None], and never raises: the access [lines[i-1]] of
    Strategy 2 is made only with [i > 0] and stays in range.  On the
    empty text and on a text of blanks and newlines it returns [None]. *)
Theorem extract_product_name_never_raises {U : UnicodeDB} (text : str) :
  (exists v : option str,
      Main.extract_product_name text = Value v
      /\ (v = None
          \/ exists l : str, v = Some l /\ In l (Main.lines_of text)))
  /\ (forall done rest : list str,
         Main.lines_of text = done ++ rest ->
         Main.strategy2 (Main.lines_of text)
           (Z.of_nat (List.length done)) rest <> RaiseIndexError)
  /\ Main.extract_product_name [] = Value None
  /\ Main.extract_product_name text_blank = Value None.
Proof.
  split; [|split; [|split]].
  - rewrite extract_product_name_shape.
    destruct (first_such keyword_line (Main.lines_of text)) as [l| |] eqn:E1.
    + exists (Some l). split; [reflexivity|]. right. exists l.
      split; [reflexivity|]. eapply first_such_member; eassumption.
    + cbn [and_then].
      destruct (trigger_scan None (Main.lines_of text)) as [l| |] eqn:E2.
      * exists (Some l). split; [reflexivity|]. right. exists l.
        split; [reflexivity|].
        apply trigger_scan_member in E2 as [E2|E2]; [discriminate|exact E2].
      * cbn [and_then].
        destruct (first_such attribution_line (Main.lines_of text))
          as [l| |] eqn:E3.
        -- exists (Some l). split; [reflexivity|]. right. exists l.
           split; [reflexivity|]. eapply first_such_member; eassumption.
        -- cbn [and_then].
           destruct (first_such fallback_line (Main.lines_of text))
             as [l| |] eqn:E4.
           ++ exists (Some l). split; [reflexivity|]. right. exists l.
              split; [reflexivity|]. eapply first_such_member; eassumption.
           ++ exists None. split; [reflexivity | now left].
           ++ now apply first_such_no_raise in E4.
        -- now apply first_such_no_raise in E3.
      * now apply trigger_scan_no_raise in E2.
    + now apply first_such_no_raise in E1.
  - intros done rest E. rewrite (strategy2_scan rest done E).
    apply trigger_scan_no_raise.
  - reflexivity.
  - reflexivity.
Qed.

(** C9: when Strategies 1, 2 and 3 return nothing, the result is the first
    line, in the order of the text, whose length is strictly greater than
    10 and strictly less than 100 and whose lowercase form contains none
    of [report], [test], [analysis], [certificate]; without such a line,
    no strategy having returned, the result is [None]. *)
Theorem strategy4_fallback {U : UnicodeDB} (text : str) :
  Main.strategy1 (Main.lines_of text) = Fallthrough ->
  Main.strategy2 (Main.lines_of text) 0 (Main.lines_of text) = Fallthrough ->
  Main.strategy3 (Main.lines_of text) = Fallthrough ->
  Main.extract_product_name text = Value (find fallback_line (Main.lines_of text))
  /\ (forall line : str,
         Main.extract_product_name text = Value (Some line)
         <-> first_match fallback_line (Main.lines_of text) line)
  /\ (Main.extract_product_name text = Value None
      <-> Main.strategy4 (Main.lines_of text) = Fallthrough)
  /\ (forall line : str,
         fallback_line line = true
         <-> (10 < Py.len line < 100)%Z
             /\ Py.any_in Main.headers (py_lower line) = false).
Proof.
  intros H1 H2 H3.
  assert (E : Main.extract_product_name text
              = Value (find fallback_line (Main.lines_of text))).
  { unfold Main.extract_product_name. cbv zeta.
    rewrite H1, H2, H3, strategy4_first_such. unfold first_such.
    now destruct (find fallback_line (Main.lines_of text)). }
  split; [exact E|]. split; [|split].
  - intros line. rewrite E, <- find_first_match. split; congruence.
  - rewrite E, strategy4_first_such. unfold first_such.
    destruct (find fallback_line (Main.lines_of text)); split; congruence.
  - intros line. unfold fallback_line, has_header, len_between.
    rewrite !andb_true_iff, negb_true_iff, !Z.ltb_lt. tauto.
Qed.

Lemma strategy4_fallback_witness :
  @Main.strategy1 ascii_db (Main.lines_of text_bystander) = Fallthrough
  /\ @Main.strategy2 ascii_db (Main.lines_of text_bystander) 0
       (Main.lines_of text_bystander) = Fallthrough
  /\ @Main.strategy3 ascii_db (Main.lines_of text_bystander) = Fallthrough
  /\ @Main.extract_product_name ascii_db text_bystander
     = Value (find (@fallback_line ascii_db) (Main.lines_of text_bystander)).
Proof.
  assert (H1 : @Main.strategy1 ascii_db (Main.lines_of text_bystander)
               = Fallthrough) by (vm_compute; reflexivity).
  assert (H2 : @Main.strategy2 ascii_db (Main.lines_of text_bystander) 0
                 (Main.lines_of text_bystander) = Fallthrough)
    by (vm_compute; reflexivity).
  assert (H3 : @Main.strategy3 ascii_db (Main.lines_of text_bystander)
               = Fallthrough) by (vm_compute; reflexivity).
  split; [exact H1 | split; [exact H2 | split; [exact H3|]]].
  exact (proj1 (@strategy4_fallback ascii_db text_bystander H1 H2 H3)).
Defined.

(** C10: the copies in [app.py] compute what the functions of [main.py]
    compute: [clean_text] on every string, [extract_product_name] on
    every text. *)
Theorem app_copy_agrees_with_main {U : UnicodeDB} :
  (forall s : str, App.clean_text s = Main.clean_text s)
  /\ (forall text : str,
         App.extract_product_name text = Main.extract_product_name text).
Proof.
  split.
  - intros s. reflexivity.
  - intros text. unfold App.extract_product_name, Main.extract_product_name.
    cbv zeta. fold (Main.lines_of text).
    assert (E1 : forall l, App.keyword_loop l = Main.strategy1 l).
    { induction l as [|x l IH]; [reflexivity|].
      cbn [App.keyword_loop Main.strategy1]. now rewrite IH. }
    assert (E2 : forall lines rest i,
               App.trigger_loop lines i rest = Main.strategy2 lines i rest).
    { intros lines rest. induction rest as [|x l IH]; intros i;
        [reflexivity|].
      cbn [App.trigger_loop Main.strategy2]. now rewrite !IH. }
    assert (E3 : forall l, App.by_from_loop l = Main.strategy3 l).
    { induction l as [|x l IH]; [reflexivity|].
      cbn [App.by_from_loop Main.strategy3]. now rewrite IH. }
    assert (E4 : forall l, App.fallback_loop l = Main.strategy4 l).
    { induction l as [|x l IH]; [reflexivity|].
      cbn [App.fallback_loop Main.strategy4]. now rewrite IH. }
    now rewrite E1, E2, E3, E4.
Qed.

(** * The rest of the code *)

(** ** More on the runtime functions *)

Lemma str_eq_spec (s t : str) : Py.str_eq s t = true <-> s = t.
Proof.
  revert t. induction s as [|a s IH]; intros [|b t]; simpl;
    try (split; [discriminate | discriminate]); [now split|].
  rewrite andb_true_iff, N.eqb_eq, IH. split.
  - intros [-> ->]. reflexivity.
  - intros [= -> ->]. now split.
Qed.

Lemma str_eq_refl (s : str) : Py.str_eq s s = true.
Proof. now apply str_eq_spec. Qed.

Lemma str_eq_false (s t : str) : Py.str_eq s t = false <-> s <> t.
Proof.
  destruct (Py.str_eq s t) eqn:E.
  - apply str_eq_spec in E. split; [discriminate | congruence].
  - split; [|reflexivity]. intros _ H. apply str_eq_spec in H. congruence.
Qed.

Lemma exists_in_spec (entries : list str) (name : str) :
  Main.exists_in entries name = true <-> In name entries.
Proof.
  unfold Main.exists_in. rewrite existsb_exists. split.
  - intros (x & Hx & E). apply str_eq_spec in E. now subst.
  - intros H. exists name. split; [exact H | apply str_eq_refl].
Qed.

Lemma exists_in_false (entries : list str) (name : str) :
  Main.exists_in entries name = false <-> ~ In name entries.
Proof.
  rewrite <- exists_in_spec. destruct (Main.exists_in entries name);
    split; congruence.
Qed.

Lemma uint_digits_are_digits (d : Decimal.uint) :
  Forall (fun c => 48 <= c <= 57) (Py.uint_digits d).
Proof. induction d; simpl; constructor; try lia; assumption. Qed.

Lemma uint_digits_inj (d d' : Decimal.uint) :
  Py.uint_digits d = Py.uint_digits d' -> d = d'.
Proof.
  revert d'. induction d; intros d'; destruct d'; simpl;
    try discriminate; try reflexivity;
    intros [= H]; f_equal; now apply IHd.
Qed.

(** Two integers with the same decimal rendering are equal. *)
Lemma str_of_int_inj (n m : Z) :
  Py.str_of_int n = Py.str_of_int m -> n = m.
Proof.
  unfold Py.str_of_int. intros H.
  rewrite <- (DecimalZ.of_to n), <- (DecimalZ.of_to m).
  f_equal.
  destruct (Z.to_int n) as [d|d], (Z.to_int m) as [d'|d'].
  - f_equal. now apply uint_digits_inj.
  - pose proof (uint_digits_are_digits d) as F. rewrite H in F.
    apply Forall_inv in F. unfold DASH in F. lia.
  - pose proof (uint_digits_are_digits d') as F. rewrite <- H in F.
    apply Forall_inv in F. unfold DASH in F. lia.
  - injection H as H. f_equal. now apply uint_digits_inj.
Qed.

(** [rfind] finds the last character that counts, or says [-1] when there
    is none. *)
Lemma rfind_spec (p : char -> bool) (s : str) :
  (Py.rfind p s = (-1)%Z /\ forall x, In x s -> p x = false)
  \/ (exists (pre : str) (c : char) (post : str),
         s = pre ++ c :: post /\ p c = true
         /\ (forall x, In x post -> p x = false)
         /\ Py.rfind p s = Z.of_nat (List.length pre)).
Proof.
  induction s as [|c r IH]; cbn [Py.rfind].
  - left. split; [reflexivity | intros x []].
  - destruct IH as [[E H] | (pre & c' & post & -> & Hc & Hpost & E)].
    + rewrite E. cbn. destruct (p c) eqn:Hc.
      * right. exists [], c, r. now repeat split.
      * left. split; [reflexivity|]. intros x [<-|Hx]; auto.
    + rewrite E. right. exists (c :: pre), c', post.
      replace (0 <=? Z.of_nat (List.length pre))%Z with true
        by (symmetry; apply Z.leb_le; lia).
      repeat split; try assumption. simpl List.length. lia.
Qed.

Lemma split_nonempty (sep : char) (s : str) : Py.split sep s <> [].
Proof.
  destruct s as [|c r]; simpl; [discriminate|].
  destruct (N.eqb c sep); [discriminate|].
  now destruct (Py.split sep r).
Qed.

Lemma split_parts (sep : char) (s : str) (w : str) :
  In w (Py.split sep s) -> ~ In sep w.
Proof.
  revert w. induction s as [|c r IH]; intros w; simpl.
  - intros [<-|[]] [].
  - destruct (N.eqb c sep) eqn:Hc.
    + intros [<-|H]; [intros [] | now apply IH].
    + destruct (Py.split sep r) as [|w0 ws] eqn:E.
      * intros [<-|[]] [->|[]]. now rewrite N.eqb_refl in Hc.
      * intros [<-|H].
        -- intros [->|H0]; [now rewrite N.eqb_refl in Hc|].
           apply (IH w0); [now left | exact H0].
        -- apply IH. now right.
Qed.

(** Without the separator there is one part, the string itself; with it
    there are at least two. *)
Lemma split_count (sep : char) (s : str) :
  (Py.rfind (fun c => N.eqb c sep) s = (-1)%Z -> Py.split sep s = [s])
  /\ ((0 <= Py.rfind (fun c => N.eqb c sep) s)%Z ->
      exists (w1 w2 : str) (ws : list str), Py.split sep s = w1 :: w2 :: ws).
Proof.
  induction s as [|c r [IH1 IH2]]; cbn [Py.rfind Py.split].
  - split; [reflexivity | cbn; lia].
  - destruct (Z.leb_spec 0 (Py.rfind (fun c => N.eqb c sep) r)) as [L|L].
    + split; [lia|]. intros _.
      destruct (IH2 L) as (w1 & w2 & ws & ->).
      destruct (N.eqb c sep); eauto.
    + destruct (rfind_spec (fun c => N.eqb c sep) r)
        as [[E _] | (pre & c' & post & _ & _ & _ & E)]; [|lia].
      rewrite (IH1 E). destruct (N.eqb c sep).
      * split; [discriminate | eauto].
      * split; [reflexivity | lia].
Qed.

(** The last part of [s.split(sep)] is what follows the last separator. *)
Lemma split_last_rfind (sep : char) (s : str) :
  last (Py.split sep s) []
  = skipn (Z.to_nat (Py.rfind (fun c => N.eqb c sep) s + 1)) s.
Proof.
  induction s as [|c r IH]; [reflexivity|].
  cbn [Py.rfind Py.split].
  destruct (split_count sep r) as [C1 C2].
  destruct (Z.leb_spec 0 (Py.rfind (fun c => N.eqb c sep) r)) as [L|L].
  - destruct (C2 L) as (w1 & w2 & ws & E). rewrite E in *.
    replace (Z.to_nat (Py.rfind (fun c0 => N.eqb c0 sep) r + 1 + 1))
      with (S (Z.to_nat (Py.rfind (fun c0 => N.eqb c0 sep) r + 1))) by lia.
    cbn [skipn]. rewrite <- IH.
    destruct (N.eqb c sep); reflexivity.
  - destruct (rfind_spec (fun c => N.eqb c sep) r)
      as [[E _] | (pre & c' & post & _ & _ & _ & E)]; [|lia].
    rewrite (C1 E), E in *. cbn in IH.
    destruct (N.eqb c sep); reflexivity.
Qed.

Lemma getitem_last (A : Type) (xs : list A) (d : A) :
  xs <> [] -> Py.getitem xs (-1) = Some (last xs d).
Proof.
  intros H. unfold Py.getitem. cbn [Z.ltb Z.compare].
  destruct (snoc_cases xs) as [->|(ys & y & ->)]; [congruence|].
  rewrite last_last, length_app. simpl List.length.
  destruct (Z.ltb_spec (Z.of_nat (List.length ys + 1) + -1) 0) as [L|L];
    [lia|].
  replace (Z.to_nat (Z.of_nat (List.length ys + 1) + -1))
    with (List.length ys) by lia.
  rewrite nth_error_app2 by lia. now rewrite Nat.sub_diag.
Qed.

(** [name.split('.')[-1]]: it never raises, and gives what follows the last
    dot, or the whole name when there is no dot. *)
Lemma split_last_component (s : str) :
  Py.getitem (Py.split DOT s) (-1)
  = Some (skipn (Z.to_nat (Py.rfind (fun c => N.eqb c DOT) s + 1)) s).
Proof.
  rewrite (@getitem_last str (Py.split DOT s) []) by apply split_nonempty.
  now rewrite split_last_rfind.
Qed.

(** ** What [extract_product_name] hands over *)

Lemma lines_of_member (text line : str) :
  In line (Main.lines_of text) ->
  line <> []
  /\ ~ In NL line
  /\ (forall c r, line = c :: r -> Py.isspace c = false)
  /\ (forall r c, line = r ++ [c] -> Py.isspace c = false).
Proof.
  unfold Main.lines_of. intros H.
  apply in_map_iff in H as (raw & <- & Hraw).
  apply filter_In in Hraw as [Hraw Hne]. repeat split.
  - intros E. now rewrite E in Hne.
  - intros Hin. apply (split_parts NL text raw Hraw).
    eapply infix_In; [apply strip_infix | exact Hin].
  - intros c r E. eapply strip_head; eassumption.
  - intros r c E. eapply strip_last; eassumption.
Qed.

Section Returned.
Context {U : UnicodeDB}.

Lemma trigger_scan_return_length (prev : option str) (rest : list str) (l : str) :
  trigger_scan prev rest = Return l -> (5 < Py.len l)%Z.
Proof.
  revert prev. induction rest as [|line rest IH]; intros prev; simpl.
  - discriminate.
  - destruct prev as [p|]; [|apply IH].
    destruct (has_trigger line) eqn:T; cbn [andb]; [|apply IH].
    destruct (Z.ltb_spec 5 (Py.len p)) as [L|L]; [|apply IH].
    now intros [= <-].
Qed.

Lemma first_such_holds (P : str -> bool) (lines : list str) (l : str) :
  first_such P lines = Return l -> P l = true.
Proof.
  unfold first_such. destruct (find P lines) as [x|] eqn:E; [|discriminate].
  intros [= <-]. now apply find_some in E.
Qed.

Lemma extracted_line_length (text line : str) :
  Main.extract_product_name text = Value (Some line) ->
  In line (Main.lines_of text) /\ (5 < Py.len line)%Z.
Proof.
  rewrite extract_product_name_shape.
  destruct (first_such keyword_line (Main.lines_of text)) as [l| |] eqn:E1;
    cbn [and_then finish]; [| |discriminate].
  { intros [= <-]. split; [eapply first_such_member; eassumption|].
    apply first_such_holds in E1. unfold keyword_line, len_between in E1.
    rewrite !andb_true_iff, !Z.ltb_lt in E1. lia. }
  destruct (trigger_scan None (Main.lines_of text)) as [l| |] eqn:E2;
    cbn [and_then finish]; [| |discriminate].
  { intros [= <-]. split.
    - apply trigger_scan_member in E2 as [E2|E2]; [discriminate | exact E2].
    - eapply trigger_scan_return_length; eassumption. }
  destruct (first_such attribution_line (Main.lines_of text)) as [l| |] eqn:E3;
    cbn [and_then finish]; [| |discriminate].
  { intros [= <-]. split; [eapply first_such_member; eassumption|].
    apply first_such_holds in E3. unfold attribution_line, len_between in E3.
    rewrite !andb_true_iff, !Z.ltb_lt in E3. lia. }
  destruct (first_such fallback_line (Main.lines_of text)) as [l| |] eqn:E4;
    cbn [and_then finish]; [| discriminate | discriminate].
  intros [= <-]. split; [eapply first_such_member; eassumption|].
  apply first_such_holds in E4. unfold fallback_line, len_between in E4.
  rewrite !andb_true_iff, !Z.ltb_lt in E4. lia.
Qed.

End Returned.

(** X1: a line returned by [extract_product_name] is one of the trimmed
    lines of the text, has more than 5 characters, contains no newline and
    neither starts nor ends with a whitespace character. *)
Theorem extracted_line_is_trimmed {U : UnicodeDB} (text line : str) :
  Main.extract_product_name text = Value (Some line) ->
  In line (Main.lines_of text)
  /\ (5 < Py.len line)%Z
  /\ ~ In NL line
  /\ (forall c r, line = c :: r -> Py.isspace c = false)
  /\ (forall r c, line = r ++ [c] -> Py.isspace c = false).
Proof.
  intros H. apply extracted_line_length in H as [Hin Hlen].
  destruct (lines_of_member text line Hin) as (_ & Hnl & Hh & Hl).
  repeat split; assumption.
Qed.

Lemma extracted_line_is_trimmed_witness :
  @Main.extract_product_name ascii_db text_vitamin
  = Value (Some (lit "Vitamin C Serum"))
  /\ In (lit "Vitamin C Serum") (Main.lines_of text_vitamin)
  /\ (5 < Py.len (lit "Vitamin C Serum"))%Z.
Proof.
  assert (H : @Main.extract_product_name ascii_db text_vitamin
              = Value (Some (lit "Vitamin C Serum")))
    by (vm_compute; reflexivity).
  split; [exact H|].
  pose proof (@extracted_line_is_trimmed ascii_db text_vitamin
                (lit "Vitamin C Serum") H) as (A & B & _).
  split; [exact A | exact B].
Defined.

(** ** When [clean_text] leaves nothing *)

Lemma dropwhile_keeps (p : char -> bool) (s : str) (c : char) :
  In c s -> p c = false -> In c (Py.dropwhile p s).
Proof.
  induction s as [|x r IH]; simpl; [tauto|].
  intros [->|H] Hc.
  - rewrite Hc. now left.
  - destruct (p x); [now apply IH | now right].
Qed.

Lemma strip_keeps (p : char -> bool) (s : str) (c : char) :
  In c s -> p c = false -> In c (Py.strip p s).
Proof.
  intros H Hc. unfold Py.strip, Py.rstrip, Py.lstrip.
  rewrite <- in_rev. apply dropwhile_keeps; [|exact Hc].
  rewrite <- in_rev. now apply dropwhile_keeps.
Qed.

Lemma dropwhile_all (p : char -> bool) (s : str) :
  forallb p s = true -> Py.dropwhile p s = [].
Proof.
  induction s as [|x r IH]; simpl; [reflexivity|].
  intros H. apply andb_true_iff in H as [Hx Hr]. now rewrite Hx, IH.
Qed.

Lemma re_sub_plus_from_keeps (b : bool) (s : str) (c : char) :
  In c s -> Main.is_underscore c = false ->
  In c (Py.re_sub_plus_from Main.is_underscore [US] b s).
Proof.
  revert b. induction s as [|x r IH]; intros b; [intros []|].
  intros [->|H] Hc; cbn [Py.re_sub_plus_from].
  - rewrite Hc. now left.
  - destruct (Main.is_underscore x).
    + destruct b; [now apply IH|]. right. now apply IH.
    + right. now apply IH.
Qed.

Lemma filename_char_split (c : char) :
  Main.filename_char c = name_char c || N.eqb c US.
Proof.
  unfold Main.filename_char, name_char.
  destruct (in_range 97 122 c), (in_range 65 90 c), (in_range 48 57 c),
    (N.eqb c US), (N.eqb c AMP), (N.eqb c DASH); reflexivity.
Qed.

Lemma name_char_facts (c : char) :
  name_char c = true ->
  Py.isspace c = false /\ N.eqb c NL = false
  /\ Main.filename_char c = true /\ Main.is_underscore c = false.
Proof.
  intros H.
  assert (F : Main.filename_char c = true)
    by (rewrite filename_char_split, H; reflexivity).
  assert (P : In c Spec.permitted)
    by (apply is_permitted_In; now rewrite <- filename_char_permitted).
  repeat split.
  - now apply permitted_not_space.
  - now apply permitted_not_newline.
  - exact F.
  - unfold Main.is_underscore. apply N.eqb_neq. intros ->.
    vm_compute in H. discriminate.
Qed.

Lemma scrubbed_keeps (s : str) (c : char) :
  In c s -> name_char c = true -> In c (scrubbed s).
Proof.
  intros H Hc. destruct (name_char_facts c Hc) as (Hs & Hn & Hf & Hu).
  unfold scrubbed. apply strip_keeps; [|exact Hu].
  apply re_sub_plus_from_keeps; [|exact Hu].
  rewrite re_sub_class_map, replace_char_map.
  apply in_map_iff. exists c. split; [now rewrite Hf|].
  apply in_map_iff. exists c. split; [now rewrite Hn|].
  now apply strip_keeps.
Qed.

Lemma scrubbed_nothing (s : str) :
  (forall c, In c s -> name_char c = false) -> scrubbed s = [].
Proof.
  intros H. unfold scrubbed.
  set (u := Py.re_sub_class _ _ _).
  assert (Hu : Forall (fun c => c = US) u).
  { subst u. rewrite re_sub_class_map, replace_char_map.
    apply Forall_forall. intros x Hx.
    apply in_map_iff in Hx as (y & <- & Hy).
    apply in_map_iff in Hy as (c & <- & Hc).
    assert (Hc' : name_char c = false)
      by (apply H; eapply infix_In; [apply strip_infix | exact Hc]).
    assert (Hy : name_char (if N.eqb c NL then SP else c) = false)
      by (destruct (N.eqb c NL); [reflexivity | exact Hc']).
    set (y := if N.eqb c NL then SP else c) in *. cbv beta.
    destruct (Main.filename_char y) eqn:F; [|reflexivity].
    rewrite filename_char_split, Hy in F. cbn [orb negb] in *.
    now apply N.eqb_eq in F. }
  assert (Hv : Forall (fun c => c = US)
                 (Py.re_sub_plus Main.is_underscore [US] u))
    by (now apply re_sub_plus_from_Forall).
  unfold Py.strip, Py.lstrip. rewrite dropwhile_all; [reflexivity|].
  apply forallb_forall. intros x Hx. rewrite Forall_forall in Hv.
  rewrite (Hv x Hx). reflexivity.
Qed.

Lemma clean_text_empty_chars (s : str) :
  Main.clean_text s = [] <-> forall c, In c s -> name_char c = false.
Proof.
  rewrite clean_text_scrubbed. split.
  - intros E c Hc. destruct (name_char c) eqn:N; [|reflexivity].
    pose proof (scrubbed_keeps s c Hc N) as Hin.
    destruct (scrubbed s) as [|x t]; [destruct Hin | discriminate].
  - intros H. now rewrite scrubbed_nothing.
Qed.

(** X2: [clean_text] returns the empty string exactly for the strings
    without a letter, a digit, [&] or [-]: these are the names for which
    a file is skipped as cleaned to the empty string. *)
Theorem clean_text_empty_iff (s : str) :
  Main.clean_text s = [] <-> forall c, In c s -> name_char c = false.
Proof. exact (clean_text_empty_chars s). Qed.

(** X3: for every string the result of [clean_text] has at most 80
    characters, all in [a-zA-Z0-9_&-], has no two underscores in a row and
    does not start with an underscore; when the string has at most 80
    characters the result does not end with an underscore either. *)
Theorem clean_text_result_shape (s : str) :
  (List.length (Main.clean_text s) <= 80)%nat
  /\ Forall (fun c => In c Spec.permitted) (Main.clean_text s)
  /\ Spec.no_double_underscore (Main.clean_text s)
  /\ Spec.no_leading_underscore (Main.clean_text s)
  /\ ((List.length s <= 80)%nat ->
      Spec.no_trailing_underscore (Main.clean_text s)).
Proof.
  destruct (clean_text_shape s) as (A & B & C & D).
  repeat split; try assumption.
  intros L.
  assert (L' : (List.length (scrubbed s) <= 80)%nat)
    by (pose proof (scrubbed_length s); lia).
  destruct (clean_text_untruncated s L') as [_ S]. apply S.
Qed.

(** ** The extension of a file name *)

Lemma rfind_none (p : char -> bool) (s : str) :
  (forall x, In x s -> p x = false) -> Py.rfind p s = (-1)%Z.
Proof.
  intros H. destruct (rfind_spec p s)
    as [[E _] | (pre & c & post & -> & Hc & _ & _)]; [exact E|].
  rewrite H in Hc; [discriminate|]. apply in_or_app. right. now left.
Qed.

Lemma rfind_last (p : char -> bool) (pre : str) (c : char) (post : str) :
  p c = true -> (forall x, In x post -> p x = false) ->
  Py.rfind p (pre ++ c :: post) = Z.of_nat (List.length pre).
Proof.
  intros Hc Hpost. induction pre as [|x pre IH]; cbn [app Py.rfind].
  - rewrite (rfind_none p post Hpost). cbn. now rewrite Hc.
  - rewrite IH.
    replace (0 <=? Z.of_nat (List.length pre))%Z with true
      by (symmetry; apply Z.leb_le; lia).
    simpl List.length. lia.
Qed.






(** What follows the last dot of a name, and what stands in front. *)
Lemma after_last_dot (name : str) :
  exists pre ext : str,
    name = pre ++ ext
    /\ skipn (Z.to_nat (Py.rfind (fun c => N.eqb c DOT) name + 1)) name = ext
    /\ ~ In DOT ext
    /\ (pre = [] \/ exists p : str, pre = p ++ [DOT]).
Proof.
  destruct (rfind_spec (fun c => N.eqb c DOT) name)
    as [[E H] | (pre & c & post & -> & Hc & Hpost & E)].
  - exists [], name. rewrite E. repeat split; [|now left].
    intros Hin. apply H in Hin. now rewrite N.eqb_refl in Hin.
  - apply N.eqb_eq in Hc. subst c. exists (pre ++ [DOT]), post.
    rewrite E, <- app_assoc. cbn [app]. repeat split.
    + replace (Z.to_nat (Z.of_nat (List.length pre) + 1))
        with (List.length pre + 1)%nat by lia.
      rewrite skipn_app, skipn_all2 by lia.
      replace (List.length pre + 1 - List.length pre)%nat with 1%nat by lia.
      reflexivity.
    + intros Hin. apply Hpost in Hin. now rewrite N.eqb_refl in Hin.
    + right. now exists pre.
Qed.

(** ** [process_image] *)

Lemma app_clean_text_same (s : str) : App.clean_text s = Main.clean_text s.
Proof. reflexivity. Qed.

Lemma app_extract_same {U : UnicodeDB} (text : str) :
  App.extract_product_name text = Main.extract_product_name text.
Proof.
  unfold App.extract_product_name, Main.extract_product_name.
  cbv zeta. fold (Main.lines_of text).
  assert (E1 : forall l, App.keyword_loop l = Main.strategy1 l).
  { induction l as [|x l IH]; [reflexivity|].
    cbn [App.keyword_loop Main.strategy1]. now rewrite IH. }
  assert (E2 : forall lines rest i,
             App.trigger_loop lines i rest = Main.strategy2 lines i rest).
  { intros lines rest. induction rest as [|x l IH]; intros i; [reflexivity|].
    cbn [App.trigger_loop Main.strategy2]. now rewrite !IH. }
  assert (E3 : forall l, App.by_from_loop l = Main.strategy3 l).
  { induction l as [|x l IH]; [reflexivity|].
    cbn [App.by_from_loop Main.strategy3]. now rewrite IH. }
  assert (E4 : forall l, App.fallback_loop l = Main.strategy4 l).
  { induction l as [|x l IH]; [reflexivity|].
    cbn [App.fallback_loop Main.strategy4]. now rewrite IH. }
  now rewrite E1, E2, E3, E4.
Qed.

Lemma permitted_no_dot (t : str) :
  Forall (fun c => In c Spec.permitted) t -> ~ In DOT t.
Proof.
  intros F H. rewrite Forall_forall in F. apply F in H.
  apply is_permitted_In in H. vm_compute in H. discriminate.
Qed.

Lemma nonempty_spec (s : str) : nonempty s = true <-> s <> [].
Proof. destruct s; simpl; split; congruence. Qed.

Lemma extract_not_raised {U : UnicodeDB} (text : str) :
  Main.extract_product_name text <> Raised.
Proof.
  rewrite extract_product_name_shape.
  destruct (first_such keyword_line (Main.lines_of text)) eqn:E1;
    cbn [and_then finish]; try discriminate;
    [|now apply first_such_no_raise in E1].
  destruct (trigger_scan None (Main.lines_of text)) eqn:E2;
    cbn [and_then finish]; try discriminate;
    [|now apply trigger_scan_no_raise in E2].
  destruct (first_such attribution_line (Main.lines_of text)) eqn:E3;
    cbn [and_then finish]; try discriminate;
    [|now apply first_such_no_raise in E3].
  destruct (first_such fallback_line (Main.lines_of text)) eqn:E4;
    cbn [and_then finish]; try discriminate.
  now apply first_such_no_raise in E4.
Qed.

Section ProcessImage.
Context {U : UnicodeDB}.

(** [process_image], case by case. *)
Lemma process_image_cases (image : App.image) (original_filename : str) :
  App.process_image image original_filename
  = match App.img_text image with
    | None => None
    | Some text =>
        match Main.extract_product_name text with
        | Value (Some line) =>
            if nonempty (Main.clean_text line) then
              match App.img_saved image with
              | Some img_bytes =>
                  Some (Main.clean_text line ++ [DOT]
                          ++ skipn (Z.to_nat
                                      (Py.rfind (fun c => N.eqb c DOT)
                                         original_filename + 1))
                               original_filename,
                        img_bytes)
              | None => None
              end
            else None
        | _ => None
        end
    end.
Proof.
  unfold App.process_image. destruct (App.img_text image) as [text|];
    [|reflexivity].
  rewrite app_extract_same.
  destruct (Main.extract_product_name text) as [[line|]|] eqn:E;
    try reflexivity.
  apply extracted_line_length in E as [_ L].
  assert (N : nonempty line = true).
  { destruct line; [unfold Py.len in L; simpl in L; lia | reflexivity]. }
  rewrite N. cbn [negb]. rewrite app_clean_text_same.
  destruct (nonempty (Main.clean_text line)); [|reflexivity].
  cbn [negb]. now rewrite split_last_component.
Qed.

End ProcessImage.

(** X4: when [process_image] returns a file name, the name is the
    sanitized form of a line that [extract_product_name] found in the
    text of the image, then a dot, then the part of the original name
    that follows its last dot (the whole original name when it has no
    dot).  The sanitized part is not empty and has no dot, and neither
    has the part after it: the new name has exactly the one dot put in. *)
Theorem process_image_name {U : UnicodeDB}
        (image : App.image) (original_filename new_filename : str)
        (img_bytes : bytes) :
  App.process_image image original_filename = Some (new_filename, img_bytes) ->
  exists text line pre ext : str,
    App.img_text image = Some text
    /\ App.img_saved image = Some img_bytes
    /\ Main.extract_product_name text = Value (Some line)
    /\ new_filename = Main.clean_text line ++ [DOT] ++ ext
    /\ Main.clean_text line <> []
    /\ ~ In DOT (Main.clean_text line)
    /\ original_filename = pre ++ ext
    /\ ~ In DOT ext
    /\ (pre = [] \/ exists p : str, pre = p ++ [DOT]).
Proof.
  rewrite process_image_cases.
  destruct (App.img_text image) as [text|]; [|discriminate].
  destruct (Main.extract_product_name text) as [[line|]|] eqn:E;
    try discriminate.
  destruct (nonempty (Main.clean_text line)) eqn:N; [|discriminate].
  destruct (App.img_saved image) as [b|]; [|discriminate].
  intros [= <- <-].
  destruct (after_last_dot original_filename) as (pre & ext & E1 & E2 & E3 & E4).
  exists text, line, pre, ext. rewrite E2.
  repeat split; try assumption; try reflexivity.
  - now apply nonempty_spec.
  - apply permitted_no_dot. apply clean_text_shape.
Qed.

Lemma process_image_name_witness :
  @App.process_image ascii_db image_serum (lit "IMG_0001.png")
  = Some (lit "Vitamin_C_Serum.png", [137; 80; 78; 71])
  /\ exists text line pre ext : str,
      App.img_text image_serum = Some text
      /\ App.img_saved image_serum = Some [137; 80; 78; 71]
      /\ @Main.extract_product_name ascii_db text = Value (Some line)
      /\ lit "Vitamin_C_Serum.png" = Main.clean_text line ++ [DOT] ++ ext
      /\ Main.clean_text line <> []
      /\ ~ In DOT (Main.clean_text line)
      /\ lit "IMG_0001.png" = pre ++ ext
      /\ ~ In DOT ext
      /\ (pre = [] \/ exists p : str, pre = p ++ [DOT]).
Proof.
  assert (H : @App.process_image ascii_db image_serum (lit "IMG_0001.png")
              = Some (lit "Vitamin_C_Serum.png", [137; 80; 78; 71]))
    by (vm_compute; reflexivity).
  split; [exact H|].
  exact (@process_image_name ascii_db image_serum (lit "IMG_0001.png")
           (lit "Vitamin_C_Serum.png") [137; 80; 78; 71] H).
Defined.

(** X5: [process_image] gives up, returning [(None, None)], in exactly
    these cases: reading the text of the image raised; no strategy found
    a product name; the name found has no letter, digit, [&] or [-], so
    that its sanitized form is empty; saving the image raised.  The
    original file name never makes it give up. *)
Theorem process_image_gives_up_iff {U : UnicodeDB}
        (image : App.image) (original_filename : str) :
  App.process_image image original_filename = None
  <-> App.img_text image = None
      \/ (exists text : str,
             App.img_text image = Some text
             /\ Main.extract_product_name text = Value None)
      \/ (exists text line : str,
             App.img_text image = Some text
             /\ Main.extract_product_name text = Value (Some line)
             /\ forall c, In c line -> name_char c = false)
      \/ App.img_saved image = None.
Proof.
  rewrite process_image_cases.
  destruct (App.img_text image) as [text|]; [|split; auto].
  destruct (Main.extract_product_name text) as [[line|]|] eqn:E.
  - destruct (nonempty (Main.clean_text line)) eqn:N.
    + destruct (App.img_saved image) as [b|].
      * split; [discriminate|].
        intros [H|[(t & H & H')|[(t & l & H & H' & H'')|H]]];
          try discriminate.
        -- injection H as <-. rewrite E in H'. discriminate.
        -- injection H as <-. rewrite E in H'. injection H' as <-.
           apply clean_text_empty_chars in H''. now rewrite H'' in N.
      * split; auto.
    + split; [|reflexivity]. intros _. right. right. left.
      exists text, line. repeat split; [exact E|].
      apply clean_text_empty_chars.
      destruct (Main.clean_text line); [reflexivity | discriminate].
  - split; [|reflexivity]. intros _. right. left. now exists text.
  - now apply extract_not_raised in E.
Qed.

(** ** The search for an unused name in [rename_images] *)



Lemma unused_name_unused (fuel : nat) (entries : list str)
      (clean_name file_extension new_filename : str) (counter : Z) (name : str) :
  Main.unused_name fuel entries clean_name file_extension new_filename counter
  = Some name ->
  ~ In name entries.
Proof.
  revert new_filename counter.
  induction fuel as [|fuel IH]; intros new_filename counter; simpl;
    [discriminate|].
  destruct (Main.exists_in entries new_filename) eqn:E; [apply IH|].
  intros [= <-]. now apply exists_in_false.
Qed.





(** ** The loop of [rename_images] *)

Section RenameLoop.
Context {U : UnicodeDB}.
Variable seps : list char.

(** One file: exactly one of the two counters goes up by one; a name is
    added to the saved ones only when it was not in the folder. *)
Lemma rename_one_step (fuel : nat) (t t' : Main.tally) (f : Main.input_file) :
  Main.rename_one seps fuel t f = Some t' ->
  (Main.processed t' + Main.skipped t' = Main.processed t + Main.skipped t + 1)%Z
  /\ ((Main.saved t' = Main.saved t /\ Main.processed t' = Main.processed t)
      \/ exists n : str,
          Main.saved t' = Main.saved t ++ [n]
          /\ Main.processed t' = (Main.processed t + 1)%Z
          /\ ~ In n (Main.folder t) /\ In n (Main.folder t'))
  /\ incl (Main.folder t) (Main.folder t')
  /\ (List.length (Main.folder t') <= List.length (Main.folder t) + 1)%nat.
Proof.
  assert (S : forall t0, t0 = Main.skip t ->
     (Main.processed t0 + Main.skipped t0
      = Main.processed t + Main.skipped t + 1)%Z
     /\ ((Main.saved t0 = Main.saved t /\ Main.processed t0 = Main.processed t)
         \/ exists n : str,
             Main.saved t0 = Main.saved t ++ [n]
             /\ Main.processed t0 = (Main.processed t + 1)%Z
             /\ ~ In n (Main.folder t) /\ In n (Main.folder t0))
     /\ incl (Main.folder t) (Main.folder t0)
     /\ (List.length (Main.folder t0) <= List.length (Main.folder t) + 1)%nat).
  { intros t0 ->. unfold Main.skip. simpl. repeat split.
    - lia.
    - now left.
    - apply incl_refl.
    - lia. }
  unfold Main.rename_one.
  destruct (Main.in_text f) as [text|]; [|intros [= <-]; now apply S].
  destruct (Main.extract_product_name text) as [[line|]|];
    try (intros [= <-]; now apply S).
  destruct (nonempty line); cbn [negb]; [|intros [= <-]; now apply S].
  destruct (nonempty (Main.clean_text line)); cbn [negb];
    [|intros [= <-]; now apply S].
  destruct (Main.unused_name fuel (Main.folder t) (Main.clean_text line)
              (snd (Py.splitext seps (Main.in_name f)))
              (Main.clean_text line ++ snd (Py.splitext seps (Main.in_name f)))
              1) as [n|] eqn:E; [|discriminate].
  apply unused_name_unused in E.
  destruct (Main.in_copy f) as [|leftover]; intros [= <-]; simpl.
  - repeat split.
    + lia.
    + right. exists n. repeat split; [exact E | now left].
    + intros x Hx. now right.
    + lia.
  - repeat split.
    + lia.
    + now left.
    + destruct leftover; [intros x Hx; now right | apply incl_refl].
    + destruct leftover; simpl; lia.
Qed.



Lemma rename_loop_invariant (entries0 : list str) (fuel : nat)
      (image_files : list Main.input_file) :
  forall (t t' : Main.tally) (done : Z),
    loop_invariant entries0 done t ->
    Main.rename_loop seps fuel t image_files = Some t' ->
    loop_invariant entries0 (done + Z.of_nat (List.length image_files)) t'.
Proof.
  induction image_files as [|f rest IH]; intros t t' done I;
    cbn [Main.rename_loop].
  - intros [= <-]. simpl. now rewrite Z.add_0_r.
  - destruct (Main.rename_one seps fuel t f) as [t1|] eqn:E; [|discriminate].
    intros H. replace (done + Z.of_nat (List.length (f :: rest)))%Z
      with ((done + 1) + Z.of_nat (List.length rest))%Z
      by (simpl List.length; lia).
    apply (IH t1); [|exact H].
    destruct I as (I1 & I2 & I3 & I4 & I5).
    apply rename_one_step in E as (S1 & S2 & S3 & _).
    unfold loop_invariant.
    destruct S2 as [[Es Ep] | (n & Es & Ep & Hn & Hn')].
    + rewrite Es, Ep. repeat split; try assumption; try lia.
      * apply S3. now apply I4.
      * now apply I4.
      * intros x Hx. apply S3. now apply I5.
    + rewrite Es, Ep. split; [lia|]. split.
      { rewrite length_app. simpl List.length. lia. }
      split.
      { apply NoDup_app; [exact I3 | repeat constructor; intros [] | ].
        intros x Hx [<-|[]]. apply Hn. now apply I4. }
      split.
      { intros x Hx. apply in_app_or in Hx as [Hx|[<-|[]]].
        - split; [apply S3; now apply I4 | now apply I4].
        - split; [exact Hn'|]. intros Hin. apply Hn. now apply I5. }
      intros x Hx. apply S3. now apply I5.
Qed.

End RenameLoop.



(** X8: [rename_images] never saves a copy under a name that is already in
    the output folder: in its summary the names saved are pairwise
    distinct, none of them was an entry of the folder before the run, all
    of them are entries afterwards, and every entry from before is still
    there. *)
Theorem rename_images_never_overwrites {U : UnicodeDB} (seps : list char)
        (fuel : nat) (out : option (list str))
        (listing : list Main.input_file) (t : Main.tally) (total : Z) :
  Main.rename_images seps fuel out listing = Some (Main.Summary t total) ->
  NoDup (Main.saved t)
  /\ (forall n, In n (Main.saved t) -> ~ In n (Main.create_output_folder out))
  /\ incl (Main.saved t) (Main.folder t)
  /\ incl (Main.create_output_folder out) (Main.folder t).
Proof.
  unfold Main.rename_images. cbv zeta.
  set (keep := fun f => Py.ends_with_any Main.VALID_EXTENSIONS
                          (py_lower (Main.in_name f))).
  destruct (filter keep listing) as [|f0 rest]; [discriminate|].
  set (t0 := {| Main.processed := 0; Main.skipped := 0;
                Main.saved := []; Main.folder := Main.create_output_folder out |}).
  destruct (Main.rename_loop seps fuel t0 (f0 :: rest)) as [t1|] eqn:E;
    [|discriminate].
  intros [= <- _].
  assert (I0 : loop_invariant (Main.create_output_folder out) 0 t0).
  { subst t0. unfold loop_invariant. simpl. repeat split.
    - constructor.
    - destruct H.
    - destruct H.
    - apply incl_refl. }
  pose proof (@rename_loop_invariant U seps _ fuel (f0 :: rest) t0 t1 0 I0 E)
    as (_ & _ & I3 & I4 & I5).
  repeat split.
  - exact I3.
  - intros n Hn. now apply I4.
  - intros n Hn. now apply I4.
  - exact I5.
Qed.

Lemma rename_images_never_overwrites_witness :
  exists (t : Main.tally) (total : Z),
    @Main.rename_images ascii_db [47] 4 (Some [lit "Vitamin_C_Serum.png"])
      [file_serum; file_serum] = Some (Main.Summary t total)
    /\ Main.saved t
       = [lit "Vitamin_C_Serum_1.png"; lit "Vitamin_C_Serum_2.png"]
    /\ NoDup (Main.saved t)
    /\ (forall n, In n (Main.saved t) ->
                  ~ In n (Main.create_output_folder
                            (Some [lit "Vitamin_C_Serum.png"]))).
Proof.
  eexists. eexists.
  assert (E : @Main.rename_images ascii_db [47] 4
                (Some [lit "Vitamin_C_Serum.png"]) [file_serum; file_serum]
              = Some (Main.Summary
                        {| Main.processed := 2; Main.skipped := 0;
                           Main.saved := [lit "Vitamin_C_Serum_1.png";
                                          lit "Vitamin_C_Serum_2.png"];
                           Main.folder := [lit "Vitamin_C_Serum_2.png";
                                           lit "Vitamin_C_Serum_1.png";
                                           lit "Vitamin_C_Serum.png"] |} 2))
    by (vm_compute; reflexivity).
  split; [exact E|]. split; [reflexivity|].
  destruct (@rename_images_never_overwrites ascii_db [47] 4 _ _ _ _ E)
    as (A & B & _).
  split; [exact A | exact B].
Defined.

(** ** The same file in [main.py] and in [app.py] *)







(** ** The upload loop of [app.py] *)

Section UploadLoop.
Context {U : UnicodeDB}.

Lemma process_uploads_none (uploaded_files : list App.upload) :
  forall (acc : list (str * bytes)) (failed : Z),
    App.process_uploads uploaded_files acc failed = None
    <-> exists u, In u uploaded_files /\ App.up_image u = None.
Proof.
  induction uploaded_files as [|u rest IH]; intros acc failed;
    cbn [App.process_uploads].
  - split; [discriminate | intros (u & [] & _)].
  - destruct (App.up_image u) as [image|] eqn:Eu.
    + assert (R : (exists v, In v (u :: rest) /\ App.up_image v = None)
                  <-> exists v, In v rest /\ App.up_image v = None).
      { split.
        - intros (v & [<-|Hv] & Ev); [congruence | eauto].
        - intros (v & Hv & Ev). exists v. split; [now right | exact Ev]. }
      rewrite R.
      destruct (App.process_image image (App.up_name u)) as [[n b]|];
        [destruct (nonempty n && nonempty b)|]; apply IH.
    + split; [|reflexivity]. intros _. exists u. split; [now left | exact Eu].
Qed.

Lemma process_uploads_some (uploaded_files : list App.upload) :
  forall (acc acc' : list (str * bytes)) (failed failed' : Z),
    App.process_uploads uploaded_files acc failed = Some (acc', failed') ->
    exists added : list (str * bytes),
      acc' = acc ++ added
      /\ (Z.of_nat (List.length added) + (failed' - failed)
          = Z.of_nat (List.length uploaded_files))%Z
      /\ (failed <= failed')%Z
      /\ forall name b, In (name, b) added ->
           b <> []
           /\ exists u image,
               In u uploaded_files /\ App.up_image u = Some image
               /\ App.process_image image (App.up_name u) = Some (name, b).
Proof.
  induction uploaded_files as [|u rest IH]; intros acc acc' failed failed';
    cbn [App.process_uploads].
  - intros [= <- <-]. exists []. rewrite app_nil_r.
    split; [reflexivity|]. split; [simpl; lia|]. split; [lia|].
    intros name b [].
  - destruct (App.up_image u) as [image|] eqn:Eu; [|discriminate].
    assert (Fail : App.process_uploads rest acc (failed + 1) = Some (acc', failed') ->
      exists added : list (str * bytes),
        acc' = acc ++ added
        /\ (Z.of_nat (List.length added) + (failed' - failed)
            = Z.of_nat (List.length (u :: rest)))%Z
        /\ (failed <= failed')%Z
        /\ forall name b, In (name, b) added ->
             b <> []
             /\ exists v image0,
                 In v (u :: rest) /\ App.up_image v = Some image0
                 /\ App.process_image image0 (App.up_name v) = Some (name, b)).
    { intros H. apply IH in H as (added & -> & Hc & Hf & Ha).
      exists added. split; [reflexivity|].
      split; [simpl List.length; lia|]. split; [lia|].
      intros name b Hin. destruct (Ha name b Hin) as (Hb & v & i0 & Hv & Ev & Ep).
      split; [exact Hb|]. exists v, i0.
      split; [now right | split; [exact Ev | exact Ep]]. }
    destruct (App.process_image image (App.up_name u)) as [[n0 b0]|] eqn:Ep;
      [|exact Fail].
    destruct (nonempty n0 && nonempty b0) eqn:Ne; [|exact Fail].
    intros H. apply IH in H as (added & -> & Hc & Hf & Ha).
    exists ((n0, b0) :: added). rewrite <- app_assoc. cbn [app].
    split; [reflexivity|]. split; [simpl List.length; lia|]. split; [lia|].
    intros name b [[= <- <-]|Hin].
    + split.
      * apply andb_true_iff in Ne as [_ Ne]. now apply nonempty_spec.
      * exists u, image. split; [now left | split; [exact Eu | exact Ep]].
    + destruct (Ha name b Hin) as (Hb & v & i0 & Hv & Ev & Ep').
      split; [exact Hb|]. exists v, i0.
      split; [now right | split; [exact Ev | exact Ep']].
Qed.

End UploadLoop.

(** X11: the loop over the uploaded files of [app.py] breaks off with an
    uncaught exception exactly when [Image.open] raises for one of the
    files; otherwise every file is counted once, as passed or as failed,
    and every passed entry has non-empty bytes and the name
    [process_image] returned for one of the uploaded files. *)
Theorem process_uploads_accounts {U : UnicodeDB}
        (uploaded_files : list App.upload) :
  (App.process_uploads uploaded_files [] 0 = None
   <-> exists u, In u uploaded_files /\ App.up_image u = None)
  /\ forall (processed_images : list (str * bytes)) (failed_count : Z),
      App.process_uploads uploaded_files [] 0
      = Some (processed_images, failed_count) ->
      (Z.of_nat (List.length processed_images) + failed_count
       = Z.of_nat (List.length uploaded_files))%Z
      /\ (0 <= failed_count)%Z
      /\ forall name b, In (name, b) processed_images ->
           b <> []
           /\ exists u image,
               In u uploaded_files /\ App.up_image u = Some image
               /\ App.process_image image (App.up_name u) = Some (name, b).
Proof.
  split; [apply process_uploads_none|].
  intros imgs failed H.
  apply process_uploads_some in H as (added & -> & Hc & Hf & Ha).
  cbn [app]. split; [lia|]. split; [lia|]. exact Ha.
Qed.

(** ** The names in the ZIP archive *)

Lemma dict_get_set (A : Type) (d : list (str * A)) (k : str) (v : A) (k' : str) :
  Py.dict_get (Py.dict_set d k v) k'
  = if Py.str_eq k' k then Some v else Py.dict_get d k'.
Proof.
  induction d as [|[k0 v0] d IH]; cbn [Py.dict_set Py.dict_get].
  - reflexivity.
  - destruct (Py.str_eq k k0) eqn:E; cbn [Py.dict_get].
    + apply str_eq_spec in E. subst k0.
      now destruct (Py.str_eq k' k).
    + rewrite IH. destruct (Py.str_eq k' k0) eqn:E0; [|reflexivity].
      destruct (Py.str_eq k' k) eqn:E1; [|reflexivity].
      apply str_eq_spec in E0, E1. subst. now rewrite str_eq_refl in E.
Qed.

Lemma rfind_dot_found (name : str) :
  In DOT name -> (0 <= Py.rfind (fun c => N.eqb c DOT) name)%Z.
Proof.
  intros H. destruct (rfind_spec (fun c => N.eqb c DOT) name)
    as [[_ N] | (pre & c & post & _ & _ & _ & ->)]; [|lia].
  apply N in H. now rewrite N.eqb_refl in H.
Qed.

Lemma dict_agrees_seen (used_names : list (str * Z)) (seen : list str)
      (name : str) (n : Z) :
  dict_agrees used_names seen ->
  n = Z.of_nat (times_seen name seen) ->
  dict_agrees (Py.dict_set used_names name n) (name :: seen).
Proof.
  intros D -> other. rewrite dict_get_set. cbn [times_seen].
  destruct (Py.str_eq other name) eqn:E; [|apply D].
  apply str_eq_spec in E. now subst other.
Qed.

(** The dictionary counts how often a name was met; the entry for an image
    is named after that count. *)
Lemma zip_entries_plan (processed_images : list (str * bytes)) :
  forall (used_names : list (str * Z)) (seen : list str),
    dict_agrees used_names seen ->
    Forall has_dot processed_images ->
    App.zip_entries used_names processed_images
    = Some (zip_plan seen processed_images).
Proof.
  induction processed_images as [|[filename img_bytes] rest IH];
    intros used_names seen D F; [reflexivity|].
  cbn [App.zip_entries zip_plan].
  pose proof (Forall_inv F) as Hdot. apply Forall_inv_tail in F.
  unfold has_dot in Hdot. cbn [fst] in Hdot.
  rewrite (D filename).
  destruct (times_seen filename seen) as [|n] eqn:T.
  - rewrite (IH _ (filename :: seen)); [reflexivity| |exact F].
    apply dict_agrees_seen; [exact D | now rewrite T].
  - cbv zeta. rewrite dict_get_set, str_eq_refl.
    unfold Py.rsplit1.
    pose proof (rfind_dot_found filename Hdot) as K.
    replace (Py.rfind (fun c => N.eqb c DOT) filename <? 0)%Z with false
      by (symmetry; apply Z.ltb_ge; exact K).
    change (Py.getitem [?a; ?b] 0) with (Some a).
    change (Py.getitem [?a; ?b] 1) with (Some b).
    rewrite (IH _ (filename :: seen)); [| |exact F].
    + cbn [entry_name].
      replace (Z.of_nat n + 1)%Z with (Z.of_nat (S n)) by lia. reflexivity.
    + apply dict_agrees_seen; [exact D | rewrite T; lia].
Qed.

Lemma zip_entries_start (processed_images : list (str * bytes)) :
  Forall has_dot processed_images ->
  App.zip_entries [] processed_images = Some (zip_plan [] processed_images).
Proof.
  intros F. apply zip_entries_plan; [|exact F]. intros name. reflexivity.
Qed.

Lemma zip_plan_bytes (processed_images : list (str * bytes)) :
  forall seen : list str,
    map snd (zip_plan seen processed_images) = map snd processed_images.
Proof.
  induction processed_images as [|[f b] rest IH]; intros seen;
    [reflexivity|].
  cbn [zip_plan map snd]. now rewrite IH.
Qed.

Lemma times_seen_app (name : str) (a b : list str) :
  times_seen name (a ++ b) = (times_seen name a + times_seen name b)%nat.
Proof.
  induction a as [|x a IH]; [reflexivity|]. cbn [app times_seen].
  destruct (Py.str_eq name x); lia.
Qed.

Lemma zip_plan_nth (processed_images : list (str * bytes)) :
  forall (seen : list str) (i : nat) (name : str) (b : bytes),
    nth_error processed_images i = Some (name, b) ->
    nth_error (zip_plan seen processed_images) i
    = Some (entry_name name
              (times_seen name (map fst (firstn i processed_images))
               + times_seen name seen), b).
Proof.
  induction processed_images as [|[f c] rest IH]; intros seen i name b.
  - destruct i; discriminate.
  - destruct i as [|i]; cbn [nth_error zip_plan firstn map fst].
    + intros [= -> ->]. reflexivity.
    + intros H. rewrite (IH _ _ _ _ H). cbn [times_seen].
      do 3 f_equal. destruct (Py.str_eq name f); lia.
Qed.

Lemma zip_plan_nth_start (processed_images : list (str * bytes))
      (i : nat) (name : str) (b : bytes) :
  nth_error processed_images i = Some (name, b) ->
  nth_error (zip_plan [] processed_images) i
  = Some (entry_name name
            (times_seen name (map fst (firstn i processed_images))), b).
Proof.
  intros H. rewrite (@zip_plan_nth processed_images [] i name b H).
  cbn [times_seen]. now rewrite Nat.add_0_r.
Qed.

Lemma entry_name_inj (pre ext : str) (j k : nat) :
  ~ In DOT ext ->
  entry_name (pre ++ DOT :: ext) j = entry_name (pre ++ DOT :: ext) k ->
  j = k.
Proof.
  intros He.
  assert (R : Z.to_nat (Py.rfind (fun c => N.eqb c DOT) (pre ++ DOT :: ext))
              = List.length pre).
  { rewrite (rfind_last (fun x => N.eqb x DOT) pre DOT ext)
      by (try reflexivity; intros x Hx; apply N.eqb_neq; intros ->; auto).
    lia. }
  assert (C : forall n,
             entry_name (pre ++ DOT :: ext) (S n)
             = pre ++ US :: Py.str_of_int (Z.of_nat (S n)) ++ DOT :: ext).
  { intros n. cbn [entry_name]. rewrite R.
    rewrite firstn_app, Nat.sub_diag, firstn_all. cbn [firstn].
    rewrite app_nil_r, skipn_app, skipn_all2 by lia.
    replace (List.length pre + 1 - List.length pre)%nat with 1%nat by lia.
    reflexivity. }
  destruct j as [|j], k as [|k]; rewrite ?C; cbn [entry_name]; intros H.
  - reflexivity.
  - apply app_inv_head in H. discriminate.
  - apply app_inv_head in H. discriminate.
  - apply app_inv_head in H. injection H as H.
    apply (app_inv_tail (DOT :: ext)) in H. apply str_of_int_inj in H. lia.
Qed.

(** Membership in a list given in full. *)
Ltac in_list := vm_compute; repeat (first [left; reflexivity | right]).

Lemma times_seen_grows (processed_images : list (str * bytes)) :
  forall (i j : nat) (name : str) (b : bytes),
    (i < j)%nat ->
    nth_error processed_images i = Some (name, b) ->
    (times_seen name (map fst (firstn i processed_images))
     < times_seen name (map fst (firstn j processed_images)))%nat.
Proof.
  induction processed_images as [|[f c] rest IH]; intros i j name b Hij.
  - destruct i; discriminate.
  - destruct j as [|j]; [lia|]. destruct i as [|i];
      cbn [nth_error firstn map fst times_seen].
    + intros [= -> ->]. rewrite str_eq_refl. lia.
    + intros H. assert (Hij' : (i < j)%nat) by lia.
      pose proof (IH i j name b Hij' H).
      destruct (Py.str_eq name f); lia.
Qed.

Lemma process_image_has_dot {U : UnicodeDB}
      (image : App.image) (original_filename name : str) (b : bytes) :
  App.process_image image original_filename = Some (name, b) -> In DOT name.
Proof.
  rewrite process_image_cases.
  destruct (App.img_text image) as [text|]; [|discriminate].
  destruct (Main.extract_product_name text) as [[line|]|]; try discriminate.
  destruct (nonempty (Main.clean_text line)); [|discriminate].
  destruct (App.img_saved image); [|discriminate].
  intros [= <- _]. apply in_or_app. right. now left.
Qed.

(** X12: when every file name has a dot, the loop that fills the ZIP
    archive raises nothing and writes one entry per image, in order and
    with the bytes unchanged; the entry of an image is named after the
    number [k] of earlier images with the same file name: the file name
    itself for [k = 0], and otherwise the file name with [_k] put in
    front of its last dot. *)
Theorem zip_entries_by_occurrence (processed_images : list (str * bytes)) :
  Forall has_dot processed_images ->
  exists entries : list (str * bytes),
    App.zip_entries [] processed_images = Some entries
    /\ map snd entries = map snd processed_images
    /\ forall (i : nat) (name : str) (b : bytes),
        nth_error processed_images i = Some (name, b) ->
        nth_error entries i
        = Some (entry_name name
                  (times_seen name (map fst (firstn i processed_images))),
                b).
Proof.
  intros F. exists (zip_plan [] processed_images). split.
  - now apply zip_entries_start.
  - split; [apply zip_plan_bytes|].
    intros i name b H. now apply zip_plan_nth_start.
Qed.

Lemma zip_entries_by_occurrence_witness :
  Forall has_dot images_twice
  /\ exists entries : list (str * bytes),
      App.zip_entries [] images_twice = Some entries
      /\ map snd entries = map snd images_twice.
Proof.
  assert (F : Forall has_dot images_twice).
  { apply Forall_forall. intros e [<-|[<-|[]]]; unfold has_dot; in_list. }
  split; [exact F|].
  destruct (zip_entries_by_occurrence F) as (entries & E & B & _).
  exists entries. split; [exact E | exact B].
Defined.

(** X13: the images that the upload loop of [app.py] has collected can
    always be packed: on them the loop that fills the ZIP archive finds
    both parts of every name it has to cut at the last dot, and writes as
    many entries as there are images. *)
Theorem zip_entries_on_processed_uploads {U : UnicodeDB}
        (uploaded_files : list App.upload)
        (processed_images : list (str * bytes)) (failed_count : Z) :
  App.process_uploads uploaded_files [] 0
  = Some (processed_images, failed_count) ->
  exists entries : list (str * bytes),
    App.zip_entries [] processed_images = Some entries
    /\ List.length entries = List.length processed_images.
Proof.
  intros H.
  apply process_uploads_some in H as (added & -> & _ & _ & Ha).
  cbn [app]. exists (zip_plan [] added). split.
  - apply zip_entries_start.
    apply Forall_forall. intros [name b] Hin.
    destruct (Ha name b Hin) as (_ & u & image & _ & _ & Ep).
    unfold has_dot. cbn [fst]. eapply process_image_has_dot; eassumption.
  - rewrite <- (length_map snd), zip_plan_bytes. apply length_map.
Qed.

Lemma zip_entries_on_processed_uploads_witness :
  @App.process_uploads ascii_db [upload_serum; upload_serum] [] 0
  = Some ([(lit "Vitamin_C_Serum.png", [137; 80; 78; 71]);
           (lit "Vitamin_C_Serum.png", [137; 80; 78; 71])], 0%Z)
  /\ exists entries : list (str * bytes),
      App.zip_entries []
        [(lit "Vitamin_C_Serum.png", [137; 80; 78; 71]);
         (lit "Vitamin_C_Serum.png", [137; 80; 78; 71])] = Some entries
      /\ List.length entries = 2%nat.
Proof.
  assert (H : @App.process_uploads ascii_db [upload_serum; upload_serum] [] 0
              = Some ([(lit "Vitamin_C_Serum.png", [137; 80; 78; 71]);
                       (lit "Vitamin_C_Serum.png", [137; 80; 78; 71])], 0%Z))
    by (vm_compute; reflexivity).
  split; [exact H|].
  exact (@zip_entries_on_processed_uploads ascii_db _ _ _ H).
Defined.

(** X14: in the ZIP archive two images with the same file name never get
    the same entry name. *)
Theorem zip_entries_repeats_distinct
        (processed_images entries : list (str * bytes))
        (i j : nat) (name ni nj : str) (bi bj ci cj : bytes) :
  Forall has_dot processed_images ->
  App.zip_entries [] processed_images = Some entries ->
  (i < j)%nat ->
  nth_error processed_images i = Some (name, bi) ->
  nth_error processed_images j = Some (name, bj) ->
  nth_error entries i = Some (ni, ci) ->
  nth_error entries j = Some (nj, cj) ->
  ni <> nj.
Proof.
  intros F E Hij Hi Hj Ei Ej.
  rewrite (zip_entries_start F) in E. injection E as <-.
  rewrite (zip_plan_nth_start _ _ Hi) in Ei.
  rewrite (zip_plan_nth_start _ _ Hj) in Ej.
  injection Ei as <- _. injection Ej as <- _.
  pose proof (@times_seen_grows processed_images i j name bi Hij Hi) as G.
  assert (D : In DOT name).
  { rewrite Forall_forall in F. apply nth_error_In in Hi. exact (F _ Hi). }
  destruct (rfind_spec (fun c => N.eqb c DOT) name)
    as [[_ N] | (pre & c & post & -> & Hc & Hpost & _)].
  - apply N in D. now rewrite N.eqb_refl in D.
  - apply N.eqb_eq in Hc. subst c. intros Heq.
    apply entry_name_inj in Heq.
    + lia.
    + intros Hin. apply Hpost in Hin. now rewrite N.eqb_refl in Hin.
Qed.

Lemma zip_entries_repeats_distinct_witness :
  App.zip_entries [] images_twice
  = Some [(lit "Serum.png", [1]); (lit "Serum_1.png", [2])]
  /\ lit "Serum.png" <> lit "Serum_1.png".
Proof.
  assert (E : App.zip_entries [] images_twice
              = Some [(lit "Serum.png", [1]); (lit "Serum_1.png", [2])])
    by (vm_compute; reflexivity).
  split; [exact E|].
  apply (@zip_entries_repeats_distinct images_twice
           [(lit "Serum.png", [1]); (lit "Serum_1.png", [2])]
           0 1 (lit "Serum.png") (lit "Serum.png") (lit "Serum_1.png")
           [1] [2] [1] [2]).
  - apply Forall_forall. intros e [<-|[<-|[]]]; unfold has_dot; in_list.
  - exact E.
  - lia.
  - reflexivity.
  - reflexivity.
  - reflexivity.
  - reflexivity.
Defined.

(** X15: entries of the ZIP archive can still share a name.  An image
    whose own file name is [stem_1.ext] is not known to the dictionary
    when it comes after two images named [stem.ext]: the second of these
    is written as [stem_1.ext], and so is the third image. *)
Theorem zip_entries_can_collide (stem ext : str) (b1 b2 b3 : bytes) :
  ~ In DOT ext ->
  App.zip_entries []
    [(stem ++ DOT :: ext, b1); (stem ++ DOT :: ext, b2);
     (stem ++ lit "_1" ++ DOT :: ext, b3)]
  = Some [(stem ++ DOT :: ext, b1);
          (stem ++ lit "_1" ++ DOT :: ext, b2);
          (stem ++ lit "_1" ++ DOT :: ext, b3)].
Proof.
  intros He.
  assert (Ne : Py.str_eq (stem ++ lit "_1" ++ DOT :: ext) (stem ++ DOT :: ext)
               = false).
  { apply str_eq_false. intros H. apply app_inv_head in H. discriminate. }
  rewrite zip_entries_start.
  - cbn [zip_plan times_seen]. rewrite str_eq_refl, Ne.
    cbn [entry_name].
    rewrite (rfind_last (fun x => N.eqb x DOT) stem DOT ext)
      by (try reflexivity; intros x Hx; apply N.eqb_neq; intros ->; auto).
    rewrite Nat2Z.id.
    rewrite firstn_app, Nat.sub_diag, firstn_all. cbn [firstn].
    rewrite app_nil_r, skipn_app, skipn_all2 by lia.
    replace (List.length stem + 1 - List.length stem)%nat with 1%nat by lia.
    reflexivity.
  - apply Forall_forall.
    intros e [<-|[<-|[<-|[]]]]; unfold has_dot; cbn [fst].
    + apply in_or_app. right. now left.
    + apply in_or_app. right. now left.
    + apply in_or_app. right. apply in_or_app. right. now left.
Qed.

Lemma zip_entries_can_collide_witness :
  App.zip_entries []
    [(lit "Serum" ++ DOT :: lit "png", [1]);
     (lit "Serum" ++ DOT :: lit "png", [2]);
     (lit "Serum" ++ lit "_1" ++ DOT :: lit "png", [3])]
  = Some [(lit "Serum" ++ DOT :: lit "png", [1]);
          (lit "Serum" ++ lit "_1" ++ DOT :: lit "png", [2]);
          (lit "Serum" ++ lit "_1" ++ DOT :: lit "png", [3])].
Proof.
  apply (@zip_entries_can_collide (lit "Serum") (lit "png") [1] [2] [3]).
  vm_compute. intuition discriminate.
Defined.
